(** * Chat approaches of the RAG backend: prompt assembly, query extraction
      and follow-up post-processing

    Shallow embedding of
      - [app/backend/approaches/chatapproach.py] (class [ChatApproach]),
      - [app/backend/approaches/chatreadretrievereadvision.py]
        (the part of [run_until_final_call] up to the search call),
      - [app/backend/approaches/retrievethenread.py]
        (the part of [run] up to the search call).

    Python values are modelled by the type [pyval]; a [str] is the list of
    its Unicode code points; a [dict] with string keys is a [gmap]; Python
    exceptions are the [Raise] results of the monad [res]. *)

From Stdlib Require Import ZArith Lia String Ascii.
From Corelib Require Import PrimFloat.
From stdpp Require Import base option list gmap.
From Equations Require Import Equations.

#[local] Set Warnings "-register-all,-notation-for-abbreviation,-inexact-float".
#[local] Open Scope Z_scope.
#[local] Open Scope list_scope.

(* ===================================================================== *)
(** * Python strings *)
(* ===================================================================== *)

(** A Python [str] is an immutable sequence of code points. *)
Notation str := (list N) (only parsing).

(** A literal whose characters are all ASCII. *)
Definition lit (s : string) : str :=
  List.map N_of_ascii (list_ascii_of_string s).

Definition LT : N := 60.   (* '<' *)
Definition GT : N := 62.   (* '>' *)
Definition SPACE : N := 32.

(** The follow-up markers. *)
Definition OPEN : str := [LT; LT].     (* "<<" *)
Definition CLOSE : str := [GT; GT].    (* ">>" *)

(** [s.startswith(p)] *)
Fixpoint startswith (p s : str) : bool :=
  match p, s with
  | [], _ => true
  | _ :: _, [] => false
  | a :: p', b :: s' => if decide (a = b) then startswith p' s' else false
  end.

(** [s.index(sub)]: the lowest index at which [sub] occurs in [s];
    [None] stands for the [ValueError] Python raises when there is none. *)
Fixpoint str_index (sub s : str) : option nat :=
  if startswith sub s then Some 0%nat
  else match s with
       | [] => None
       | _ :: t => S <$> str_index sub t
       end.

(** [sub in s] *)
Definition str_contains (sub s : str) : bool :=
  if str_index sub s is Some _ then true else false.

(** A value together with the equation that names it, for the [with]
    clauses of the definitions by well-founded recursion below. *)
Definition inspect {A} (a : A) : {b : A | a = b} := exist _ a eq_refl.

(** [s.split(sep)] for a non-empty separator: the pieces between the
    non-overlapping occurrences of [sep], found left to right.  Python
    raises [ValueError] on an empty separator; that case, which the program
    never reaches (its only separator is the literal ["<<"]), is the empty
    list of pieces here, a value no successful split returns. *)
Equations? str_split (sep s : str) : list str by wf (length s) lt :=
  str_split [] s := [];
  str_split (c :: sep') s with inspect (str_index (c :: sep') s) := {
    | exist _ None _ := [s];
    | exist _ (Some i) Hi :=
        take i s :: str_split (c :: sep') (drop (i + S (length sep')) s) }.
Proof.
  rewrite length_drop.
  assert (length s ≠ 0%nat); [|lia].
  destruct s; [|done]. simpl in Hi. done.
Qed.

(** [l[0]] on a list of strings; [IndexError] is not modelled since [split]
    never returns an empty list. *)
Definition first_piece (l : list str) : str := hd [] l.

(** Characters matched by the class [[^>>]]: everything but ['>']. *)
Definition not_gt (c : N) : bool := if decide (c = GT) then false else true.

Fixpoint take_while (f : N → bool) (s : str) : str :=
  match s with
  | [] => []
  | c :: t => if f c then c :: take_while f t else []
  end.

Fixpoint drop_while (f : N → bool) (s : str) : str :=
  match s with
  | [] => []
  | c :: t => if f c then drop_while f t else s
  end.

(** [s] without the prefix [p], when it has it. *)
Fixpoint strip_prefix (p s : str) : option str :=
  match p, s with
  | [], _ => Some s
  | _ :: _, [] => None
  | a :: p', b :: s' => if decide (a = b) then strip_prefix p' s' else None
  end.

(** One attempt of the pattern [<<([^>>]+)>>] at the start of [s]: the text
    captured by the group and what follows the match.  The class is greedy
    and excludes ['>'], so the group is the longest run of characters other
    than ['>'] after ["<<"]; giving characters back cannot help, the next
    pattern character being ['>']. *)
Definition match_followup (s : str) : option (str * str) :=
  r ← strip_prefix OPEN s;
  let body := take_while not_gt r in
  if body is [] then None
  else rest ← strip_prefix CLOSE (drop_while not_gt r); Some (body, rest).

Lemma strip_prefix_app p s r : strip_prefix p s = Some r → s = p ++ r.
Proof.
  revert s. induction p as [|a p IH]; intros [|b s] H; simpl in *;
    try congruence.
  case_decide; [|done]. subst. f_equal. by apply IH.
Qed.

Lemma take_drop_while f s : take_while f s ++ drop_while f s = s.
Proof. induction s as [|c t IH]; simpl; [done|]. destruct (f c); simpl; congruence. Qed.

(** A successful attempt consumed ["<<"], a non-empty body and [">>"]. *)
Lemma match_followup_shape s body rest :
  match_followup s = Some (body, rest) →
  s = OPEN ++ body ++ CLOSE ++ rest ∧ body ≠ [].
Proof.
  unfold match_followup. intros H.
  destruct (strip_prefix OPEN s) as [r|] eqn:Hr; [|done].
  cbn [mbind option_bind] in H.
  destruct (take_while not_gt r) as [|b0 b] eqn:Hb; [done|].
  destruct (strip_prefix CLOSE (drop_while not_gt r)) as [r'|] eqn:Hc; [|done].
  injection H as <- <-.
  apply strip_prefix_app in Hr, Hc. split; [|done].
  rewrite Hr. f_equal. rewrite <- Hc, <- Hb. symmetry. apply take_drop_while.
Qed.

(** [re.findall(r"<<([^>>]+)>>", s)]: the groups of the non-overlapping
    matches, leftmost first; after a match the scan resumes behind it,
    after a failed attempt one character further. *)
Equations? findall_followup (s : str) : list str by wf (length s) lt :=
  findall_followup [] := [];
  findall_followup (c :: t) with inspect (match_followup (c :: t)) := {
    | exist _ (Some (body, rest)) Hm := body :: findall_followup rest;
    | exist _ None _ := findall_followup t }.
Proof.
  - apply match_followup_shape in Hm as [Hm _].
    apply (f_equal length) in Hm. rewrite !length_app in Hm. simpl in *. lia.
Qed.

(** [ChatApproach.extract_followup_questions] *)
Definition extract_followup_questions (content : str) : str * list str :=
  (first_piece (str_split OPEN content), findall_followup content).

(** [sep.join(pieces)] *)
Fixpoint str_join (sep : str) (pieces : list str) : str :=
  match pieces with
  | [] => []
  | [p] => p
  | p :: rest => p ++ sep ++ str_join sep rest
  end.

(** Iterating over a [str] yields its characters as one-character strings. *)
Definition chars (s : str) : list str := (λ c, [c]) <$> s.

(** Whitespace as [str.strip()] sees it (the code points for which
    [str.isspace] holds). *)
Definition is_space (c : N) : bool :=
  ((9 <=? c) && (c <=? 13) || (28 <=? c) && (c <=? 32) || (c =? 133)
   || (c =? 160) || (c =? 5760) || (8192 <=? c) && (c <=? 8202)
   || (c =? 8232) || (c =? 8233) || (c =? 8239) || (c =? 8287)
   || (c =? 12288))%N.

(** [s.strip()] *)
Definition str_strip (s : str) : str :=
  reverse (drop_while is_space (reverse (drop_while is_space s))).

(* ===================================================================== *)
(** * Python values, dictionaries and exceptions *)
(* ===================================================================== *)

(** The values that travel through the request: what JSON decoding and the
    request context can produce. *)
Inductive pyval : Type :=
| PNone
| PBool (b : bool)
| PInt (z : Z)
| PFloat (f : float)
| PStr (s : str)
| PList (l : list pyval)
| PDict (d : gmap str pyval).

(** Truth value of an object in a boolean context. *)
Definition py_truthy (v : pyval) : bool :=
  match v with
  | PNone => false
  | PBool b => b
  | PInt z => negb (z =? 0)
  | PFloat f => negb (PrimFloat.eqb f PrimFloat.zero)
  | PStr s => if s is [] then false else true
  | PList l => if l is [] then false else true
  | PDict d => negb (Nat.eqb (size d) 0)
  end.

(** [a and b]: the first operand when it is falsy, else the second. *)
Definition py_and (a b : pyval) : pyval := if py_truthy a then b else a.

(** [v == s] for a string [s]: only an equal string is equal to it. *)
Definition py_eq_str (v : pyval) (s : str) : bool :=
  if v is PStr t then bool_decide (t = s) else false.

(** [v == None] *)
Definition py_is_none (v : pyval) : bool :=
  if v is PNone then true else false.

(** [d.get(key)] and [d.get(key, dflt)] *)
Definition dict_get (d : gmap str pyval) (key : str) : pyval :=
  default PNone (d !! key).
Definition dict_get_or (d : gmap str pyval) (key : str) (dflt : pyval) : pyval :=
  default dflt (d !! key).

Inductive exn : Type :=
| IndexError
| KeyError
| TypeError
| AttributeError
| ValueError
| JSONDecodeError
| OtherError (name : str).

(** Result of a computation that may raise. *)
Inductive res (A : Type) : Type :=
| Ok (a : A)
| Raise (e : exn).
Arguments Ok {A} a.
Arguments Raise {A} e.

#[global] Instance res_ret : MRet res := λ A a, Ok a.
#[global] Instance res_bind : MBind res := λ A B f m,
  match m with
  | Ok a => f a
  | Raise e => Raise e
  end.
#[global] Instance res_fmap : FMap res := λ A B f m,
  match m with
  | Ok a => Ok (f a)
  | Raise e => Raise e
  end.

(** [l[-1]] *)
Definition last_item {A} (l : list A) : res A :=
  if last l is Some a then Ok a else Raise IndexError.

(** [l[0]] *)
Definition first_item {A} (l : list A) : res A :=
  if l is a :: _ then Ok a else Raise IndexError.

(** [l.insert(index, x)] for an index that is not negative: [x] goes before
    position [index], at the end when the list is shorter. *)
Definition list_insert_at {A} (index : nat) (x : A) (l : list A) : list A :=
  take index l ++ x :: drop index l.

(** [l[:-1]] *)
Definition all_but_last {A} (l : list A) : list A :=
  take (length l - 1) l.

(* ===================================================================== *)
(** * Messages and the message builder *)
(* ===================================================================== *)

(** A chat message: the dict [{"role": ..., "content": ...}].  The content
    is a string or, for a multimodal turn, a list of content parts. *)
Record message : Type := Message { role : str; content : pyval }.

(** Chat roles *)
Definition SYSTEM : str := lit "system".
Definition USER : str := lit "user".
Definition ASSISTANT : str := lit "assistant".

Definition NO_RESPONSE : str := lit "0".

(** Modelled from the spec: the class [MessageBuilder] of
    [core/messagebuilder.py] is not among the sources.  The builder owns the
    message list, which starts with the system prompt at index 0;
    [insert_message(role, content, index=1)] puts the message
    [{"role": role, "content": content}] before position [index] of that
    list; [count_tokens_for_message] asks the token-counting collaborator
    for the cost of one message under the builder's model. *)
Record MessageBuilder : Type :=
  { messages : list message; model : str }.

Definition MessageBuilder_new (system_content model_id : str) : MessageBuilder :=
  {| messages := [Message SYSTEM (PStr system_content)]; model := model_id |}.

Definition insert_message (mb : MessageBuilder) (r : str) (c : pyval)
    (index : nat) : MessageBuilder :=
  {| messages := list_insert_at index (Message r c) (messages mb);
     model := model mb |}.

Section TokenBudget.

(** [core.modelhelper.num_tokens_from_messages(message, model)], the
    token-counting collaborator: a number of tokens, or an exception on
    content it cannot encode. *)
Variable num_tokens_from_messages : message → str → res nat.

Definition count_tokens_for_message (mb : MessageBuilder) (m : message)
    : res nat :=
  num_tokens_from_messages m (model mb).

(** The loop that adds up the cost of the messages already present. *)
Fixpoint count_existing (mb : MessageBuilder) (total_token_count : nat)
    (existing : list message) : res nat :=
  match existing with
  | [] => Ok total_token_count
  | existing_message :: rest =>
      n ← count_tokens_for_message mb existing_message;
      count_existing mb (total_token_count + n) rest
  end.

(** The loop over [newest_to_oldest]; it ends at the first message that
    does not fit ([break]). *)
Fixpoint insert_history (mb : MessageBuilder) (append_index : nat)
    (max_tokens : Z) (total_token_count : nat)
    (newest_to_oldest : list message) : res MessageBuilder :=
  match newest_to_oldest with
  | [] => Ok mb
  | m :: rest =>
      potential_message_count ← count_tokens_for_message mb m;
      if Z.of_nat (total_token_count + potential_message_count) >? max_tokens
      then Ok mb
      else insert_history
             (insert_message mb (role m) (content m) append_index)
             append_index max_tokens
             (total_token_count + potential_message_count) rest
  end.

(** [ChatApproach.get_messages_from_history] *)
Definition get_messages_from_history (system_prompt model_id : str)
    (history : list message) (user_content : pyval) (max_tokens : Z)
    (few_shots : list message) : res (list message) :=
  let message_builder := MessageBuilder_new system_prompt model_id in
  let message_builder :=
    foldl (λ mb shot, insert_message mb (role shot) (content shot) 1)
          message_builder (reverse few_shots) in
  let append_index := (length few_shots + 1)%nat in
  let message_builder :=
    insert_message message_builder USER user_content append_index in
  total_token_count ←
    count_existing message_builder 0 (messages message_builder);
  let newest_to_oldest := reverse (all_but_last history) in
  message_builder ←
    insert_history message_builder append_index max_tokens
                   total_token_count newest_to_oldest;
  Ok (messages message_builder).

(** Total estimated token cost of a message list under a model. *)
Fixpoint total_cost (model_id : str) (l : list message) : res nat :=
  match l with
  | [] => Ok 0%nat
  | m :: rest =>
      n ← num_tokens_from_messages m model_id;
      t ← total_cost model_id rest;
      Ok (n + t)%nat
  end.

(** The messages the history loop accepts, newest first: the longest
    prefix of [newest_to_oldest] whose running total stays within the
    ceiling. *)
Fixpoint accepted (model_id : str) (max_tokens : Z) (total : nat)
    (newest_to_oldest : list message) : res (list message) :=
  match newest_to_oldest with
  | [] => Ok []
  | m :: rest =>
      c ← num_tokens_from_messages m model_id;
      if Z.of_nat (total + c) >? max_tokens then Ok []
      else (m ::.) <$> accepted model_id max_tokens (total + c) rest
  end.

End TokenBudget.

(** The base list of the assembly: system prompt, few-shots, new turn. *)
Definition mandatory (system_prompt : str) (few_shots : list message)
    (user_content : pyval) : list message :=
  Message SYSTEM (PStr system_prompt) :: few_shots
  ++ [Message USER user_content].

(** A counter that charges every message the same number of tokens. *)
Definition flat_count (n : nat) : message → str → res nat := λ _ _, Ok n.

(** A counter that charges a message the length of its text. *)
Definition length_count : message → str → res nat :=
  λ m _, Ok (if content m is PStr t then length t else 0%nat).


(* ===================================================================== *)
(** * Search query extraction *)
(* ===================================================================== *)

(** The parts of a [ChatCompletion] that [get_search_query] reads. *)
Record function_call : Type :=
  { fn_name : str; fn_arguments : str }.
Record tool_call : Type :=
  { tc_type : str; tc_function : function_call }.
Record chat_message : Type :=
  { msg_content : option str; msg_tool_calls : option (list tool_call) }.
Record chat_completion : Type :=
  { cc_choices : list chat_message }.   (* [choices[i].message] *)

Section SearchQuery.

(** [json.loads]; it raises [JSONDecodeError] on malformed text. *)
Variable json_loads : str → res pyval.

(** [arg.get("search_query", NO_RESPONSE)]; only a dict has [get]. *)
Definition arg_get_search_query (arg : pyval) : res pyval :=
  if arg is PDict d
  then Ok (dict_get_or d (lit "search_query") (PStr NO_RESPONSE))
  else Raise AttributeError.

(** The loop over [response_message.tool_calls]. *)
Fixpoint search_query_of_tools (tools : list tool_call) (user_query : str)
    : res pyval :=
  match tools with
  | [] => Ok (PStr user_query)
  | tool :: rest =>
      if negb (bool_decide (tc_type tool = lit "function"))
      then search_query_of_tools rest user_query
      else
        let function := tc_function tool in
        if bool_decide (fn_name function = lit "search_sources") then
          arg ← json_loads (fn_arguments function);
          search_query ← arg_get_search_query arg;
          if negb (py_eq_str search_query NO_RESPONSE)
          then Ok search_query
          else search_query_of_tools rest user_query
        else search_query_of_tools rest user_query
  end.

(** [ChatApproach.get_search_query] *)
Definition get_search_query (completion : chat_completion) (user_query : str)
    : res pyval :=
  response_message ← first_item (cc_choices completion);
  match msg_tool_calls response_message with
  | Some (tool :: rest) =>
      search_query_of_tools (tool :: rest) user_query
  | _ =>
      match msg_content response_message with
      | Some (c :: t) =>
          let query_text := c :: t in
          if negb (bool_decide (str_strip query_text = NO_RESPONSE))
          then Ok (PStr query_text)
          else Ok (PStr user_query)
      | _ => Ok (PStr user_query)
      end
  end.

(** A tool call the loop passes over: it is not a function call, or not a
    call of [search_sources], or its arguments decode to a dict whose
    [search_query] is absent or the sentinel. *)
Definition passed_over (tool : tool_call) : Prop :=
  tc_type tool ≠ lit "function" ∨
  fn_name (tc_function tool) ≠ lit "search_sources" ∨
  ∃ d, json_loads (fn_arguments (tc_function tool)) = Ok (PDict d) ∧
       (d !! lit "search_query" = None ∨
        d !! lit "search_query" = Some (PStr NO_RESPONSE)).

(** A call of [search_sources] whose arguments carry the query [v]. *)
Definition carries (tool : tool_call) (v : pyval) : Prop :=
  tc_type tool = lit "function" ∧
  fn_name (tc_function tool) = lit "search_sources" ∧
  ∃ d, json_loads (fn_arguments (tc_function tool)) = Ok (PDict d) ∧
       d !! lit "search_query" = Some v ∧
       py_eq_str v NO_RESPONSE = false.

End SearchQuery.

(** A decoder for the two argument texts of the examples: [{}] and
    [{"search_query": "rent"}]. *)
Definition QUOTE : N := 34.
Definition rent_arguments : str :=
  lit "{" ++ [QUOTE] ++ lit "search_query" ++ [QUOTE] ++ lit ": "
  ++ [QUOTE] ++ lit "rent" ++ [QUOTE] ++ lit "}".
Definition json_loads_examples (text : str) : res pyval :=
  if decide (text = lit "{}") then Ok (PDict ∅)
  else if decide (text = rent_arguments)
       then Ok (PDict {[ lit "search_query" := PStr (lit "rent") ]})
       else Raise JSONDecodeError.

(* ===================================================================== *)
(** * Post-processing of the model's answer *)
(* ===================================================================== *)

(** [overrides.get("suggest_followup_questions")] in a condition *)
Definition suggest_followup_questions (overrides : gmap str pyval) : bool :=
  py_truthy (dict_get overrides (lit "suggest_followup_questions")).

(** ** Without streaming *)

(** The completed response, [chat_completion_response.model_dump()]: the
    message content of its first choice, and everything else. *)
Record chat_response : Type :=
  { resp_content : list (option str);   (* [choices[i].message.content] *)
    resp_other : pyval }.

(** What [run_without_streaming] returns, as far as it sets it.  The
    context of the first choice is [extra_info] itself; the entry
    ["followup_questions"] written into it is kept beside it. *)
Record chat_result : Type :=
  { result_content : option str;
    result_context : pyval;                       (* [extra_info] *)
    result_followup_questions : option (list str);
    result_session_state : pyval;
    result_other : pyval }.

(** [ChatApproach.run_without_streaming], after the two awaited calls
    returned [extra_info] and [chat_resp]. *)
Definition run_without_streaming (overrides : gmap str pyval)
    (extra_info session_state : pyval) (chat_resp : chat_response)
    : res chat_result :=
  message_content ← first_item (resp_content chat_resp);
  if suggest_followup_questions overrides then
    (* [None] has no [split] *)
    text ← (if message_content is Some t then Ok t else Raise AttributeError);
    let '(visible, followup_questions) := extract_followup_questions text in
    (* [context["followup_questions"] = ...]: of the values a context can
       be, only a dict takes an entry under a string key *)
    if extra_info is PDict _ then
      Ok {| result_content := Some visible;
            result_context := extra_info;
            result_followup_questions := Some followup_questions;
            result_session_state := session_state;
            result_other := resp_other chat_resp |}
    else Raise TypeError
  else
    Ok {| result_content := message_content;
          result_context := extra_info;
          result_followup_questions := None;
          result_session_state := session_state;
          result_other := resp_other chat_resp |}.

(** ** With streaming *)

(** One chunk of the completion stream, [event_chunk.model_dump()].
    [delta_content] is [delta.get("content")], [None] both when the key is
    absent and when its value is [None]. *)
Record chunk_choice : Type :=
  { delta_content : option str; choice_other : pyval }.
Record event : Type :=
  { choices : list chunk_choice; event_other : pyval }.

(** [event["choices"][0]["delta"]["content"] = text] *)
Definition set_delta_content (e : event) (text : str) : event :=
  match choices e with
  | [] => e
  | c :: cs =>
      {| choices := {| delta_content := Some text;
                       choice_other := choice_other c |} :: cs;
         event_other := event_other e |}
  end.

(** What the generator yields. *)
Inductive yielded : Type :=
| YContext (extra_info session_state : pyval)   (* the first event *)
| YEvent (e : event)                            (* a chunk of the stream *)
| YFollowup (followup_questions : list str).    (* the last event *)

(** The two local variables of the loop. *)
Record stream_state : Type :=
  { followup_questions_started : bool; followup_content : str }.

Definition stream_start : stream_state :=
  {| followup_questions_started := false; followup_content := [] |}.

(** One iteration of the [async for] loop: the new state and what this
    iteration yields. *)
Definition stream_step (overrides : gmap str pyval) (st : stream_state)
    (e : event) : stream_state * list yielded :=
  match choices e with
  | [] => (st, [])
  | c :: _ =>
      let text := default [] (delta_content c) in     (* [content or ''] *)
      match (if suggest_followup_questions overrides
             then str_index OPEN text else None) with
      | Some i =>
          (* ["<<" in content], and [i] is [content.index("<<")] *)
          let earlier_content := take i text in
          ({| followup_questions_started := true;
              followup_content := followup_content st ++ drop i text |},
           if earlier_content is [] then []
           else [YEvent (set_delta_content e earlier_content)])
      | None =>
          if followup_questions_started st then
            ({| followup_questions_started := followup_questions_started st;
                followup_content := followup_content st ++ text |}, [])
          else (st, [YEvent e])
      end
  end.

(** The whole loop over the chunks of the stream. *)
Fixpoint stream_loop (overrides : gmap str pyval) (st : stream_state)
    (events : list event) : stream_state * list yielded :=
  match events with
  | [] => (st, [])
  | e :: rest =>
      let '(st1, out1) := stream_step overrides st e in
      let '(st2, out2) := stream_loop overrides st1 rest in
      (st2, out1 ++ out2)
  end.

(** [ChatApproach.run_with_streaming], after the awaited call returned
    [extra_info] and the stream [events]: everything the generator yields. *)
Definition run_with_streaming (overrides : gmap str pyval)
    (extra_info session_state : pyval) (events : list event) : list yielded :=
  let '(st, out) := stream_loop overrides stream_start events in
  YContext extra_info session_state :: out ++
  (if followup_content st is [] then []
   else [YFollowup (extract_followup_questions (followup_content st)).2]).

(** The text of a chunk as the loop reads it, and as the caller reads it
    from a yielded one. *)
Definition event_text (e : event) : str :=
  match choices e with
  | [] => []
  | c :: _ => default [] (delta_content c)
  end.

(** The visible content a caller receives: the texts of the yielded chunks,
    in order. *)
Definition visible_content (out : list yielded) : str :=
  mjoin ((λ y, if y is YEvent e then event_text e else []) <$> out).

(** The full response a stream spells out. *)
Definition full_content (events : list event) : str :=
  mjoin (event_text <$> events).

(** A chunk that carries the text [text] and nothing else of interest. *)
Definition delta_event (text : str) : event :=
  {| choices := [{| delta_content := Some text; choice_other := PNone |}];
     event_other := PNone |}.

(** The splittings of a response for which the state machine sees the
    marker where the response has it: either the response has no ["<<"], or
    its first ["<<"] lies inside one chunk, not across a chunk boundary,
    and every later chunk that holds ["<<"] starts with it. *)
Inductive marker_aligned : list event → Prop :=
| aligned_no_marker events :
    str_index OPEN (full_content events) = None →
    marker_aligned events
| aligned_marker before e after i :
    str_index OPEN (event_text e) = Some i →
    str_index OPEN (full_content before ++ take (S i) (event_text e)) = None →
    Forall (λ e', str_index OPEN (event_text e') = None ∨
                  str_index OPEN (event_text e') = Some 0%nat) after →
    marker_aligned (before ++ e :: after).

(* ===================================================================== *)
(** * Retrieval: the call of the search collaborator *)
(* ===================================================================== *)

(** The arguments of [self.search(...)], in the order of the call. *)
Record search_call : Type :=
  { sc_top : pyval;
    sc_query_text : pyval;
    sc_filter : pyval;
    sc_vectors : list pyval;
    sc_use_semantic_ranker : pyval;
    sc_use_semantic_captions : pyval;
    sc_minimum_search_score : pyval;
    sc_minimum_reranker_score : pyval }.

(** [overrides.get("retrieval_mode") in ["text", "hybrid", None]] *)
Definition has_text (overrides : gmap str pyval) : bool :=
  let mode := dict_get overrides (lit "retrieval_mode") in
  py_eq_str mode (lit "text") || py_eq_str mode (lit "hybrid")
  || py_is_none mode.

(** [overrides.get("retrieval_mode") in ["vectors", "hybrid", None]] *)
Definition has_vector (overrides : gmap str pyval) : bool :=
  let mode := dict_get overrides (lit "retrieval_mode") in
  py_eq_str mode (lit "vectors") || py_eq_str mode (lit "hybrid")
  || py_is_none mode.

(** [True if overrides.get(flag) and has_text else False] *)
Definition flag_and_text (overrides : gmap str pyval) (flag : str) : pyval :=
  if py_truthy (py_and (dict_get overrides flag) (PBool (has_text overrides)))
  then PBool true else PBool false.

(** The request string of the query-distillation step. *)
Definition user_query_request_of (original_user_query : str) : str :=
  lit "Generate search query for: " ++ original_user_query.

(** [chatgpt_token_limit - len(" ".join(user_query_request))], the
    [max_tokens] argument of the first [get_messages_from_history] call. *)
Definition query_max_tokens (chatgpt_token_limit : Z)
    (user_query_request : str) : Z :=
  chatgpt_token_limit
  - Z.of_nat (length (str_join [SPACE] (chars user_query_request))).

(** [message["content"]] of a history entry used as text. *)
Definition content_text (m : message) : res str :=
  if content m is PStr t then Ok t else Raise TypeError.

Section Retrieval.

(** [iter(d)] of a dict: its keys in the order of their insertion, which
    the finite map of the model does not record. *)
Variable dict_iter : gmap str pyval → list str.

Variable num_tokens_from_messages : message → str → res nat.
Variable json_loads : str → res pyval.

(** Attributes of the approach object.  [chatgpt_token_limit] is
    [get_token_limit(gpt4v_model)] of [core/modelhelper.py]; the prompt
    template and the few-shot list are the class constants. *)
Variable gpt4v_model : str.
Variable chatgpt_token_limit : Z.
Variable query_prompt_template : str.
Variable query_prompt_few_shots : list message.

(** Collaborators: filter construction ([Approach.build_filter]), the
    completion service and the two embedding services. *)
Variable build_filter : gmap str pyval → pyval → res pyval.
Variable chat_completions_create : list message → res chat_completion.
Variable compute_text_embedding : pyval → res pyval.
Variable compute_image_embedding : pyval → res pyval.

(** The loop over [vector_fields]. *)
Fixpoint compute_vectors (vector_fields : list pyval) (query_text : pyval)
    : res (list pyval) :=
  match vector_fields with
  | [] => Ok []
  | field :: rest =>
      vector ← (if py_eq_str field (lit "embedding")
                then compute_text_embedding query_text
                else compute_image_embedding query_text);
      vectors ← compute_vectors rest query_text;
      Ok (vector :: vectors)
  end.

(** Iterating over [overrides.get("vector_fields", ["embedding"])]. *)
Definition vector_fields_of (overrides : gmap str pyval) : res (list pyval) :=
  match dict_get_or overrides (lit "vector_fields")
                    (PList [PStr (lit "embedding")]) with
  | PList l => Ok l
  | PStr t => Ok (PStr <$> chars t)
  | PDict d => Ok (PStr <$> dict_iter d)
  | _ => Raise TypeError
  end.

(** The messages of the query-distillation step (STEP 1). *)
Definition vision_query_messages (history : list message)
    (original_user_query : str) : res (list message) :=
  let user_query_request := user_query_request_of original_user_query in
  get_messages_from_history num_tokens_from_messages
    query_prompt_template gpt4v_model history (PStr user_query_request)
    (query_max_tokens chatgpt_token_limit user_query_request)
    query_prompt_few_shots.

(** [ChatReadRetrieveReadVisionApproach.run_until_final_call] up to its
    call of [self.search]: the arguments of that call.  The filter is
    built before the history is read. *)
Definition vision_search_call (history : list message)
    (overrides : gmap str pyval) (auth_claims : pyval) : res search_call :=
  let use_semantic_captions := flag_and_text overrides (lit "semantic_captions") in
  let top := dict_get_or overrides (lit "top") (PInt 3) in
  let minimum_search_score :=
    dict_get_or overrides (lit "minimum_search_score") (PFloat 0%float) in
  let minimum_reranker_score :=
    dict_get_or overrides (lit "minimum_reranker_score") (PFloat 0%float) in
  filter ← build_filter overrides auth_claims;
  let use_semantic_ranker := flag_and_text overrides (lit "semantic_ranker") in
  newest ← last_item history;
  original_user_query ← content_text newest;
  query_messages ← vision_query_messages history original_user_query;
  completion ← chat_completions_create query_messages;
  query_text ← get_search_query json_loads completion original_user_query;
  vectors ←
    (if has_vector overrides then
       vector_fields ← vector_fields_of overrides;
       compute_vectors vector_fields query_text
     else Ok []);
  let query_text := if negb (has_text overrides) then PNone else query_text in
  Ok {| sc_top := top;
        sc_query_text := query_text;
        sc_filter := filter;
        sc_vectors := vectors;
        sc_use_semantic_ranker := use_semantic_ranker;
        sc_use_semantic_captions := use_semantic_captions;
        sc_minimum_search_score := minimum_search_score;
        sc_minimum_reranker_score := minimum_reranker_score |}.

(** [RetrieveThenReadApproach.run] up to its call of [self.search].  The
    last message is read first, the filter is built after it. *)
Definition retrievethenread_search_call (messages : list message)
    (overrides : gmap str pyval) (auth_claims : pyval) : res search_call :=
  newest ← last_item messages;
  let q := content newest in
  let use_semantic_ranker :=
    py_and (dict_get overrides (lit "semantic_ranker"))
           (PBool (has_text overrides)) in
  let use_semantic_captions := flag_and_text overrides (lit "semantic_captions") in
  let top := dict_get_or overrides (lit "top") (PInt 3) in
  let minimum_search_score :=
    dict_get_or overrides (lit "minimum_search_score") (PFloat 0.03%float) in
  let minimum_reranker_score :=
    dict_get_or overrides (lit "minimum_reranker_score") (PFloat 3%float) in
  filter ← build_filter overrides auth_claims;
  vectors ←
    (if has_vector overrides then
       vector ← compute_text_embedding q; Ok [vector]
     else Ok []);
  let query_text := if has_text overrides then q else PNone in
  Ok {| sc_top := top;
        sc_query_text := query_text;
        sc_filter := filter;
        sc_vectors := vectors;
        sc_use_semantic_ranker := use_semantic_ranker;
        sc_use_semantic_captions := use_semantic_captions;
        sc_minimum_search_score := minimum_search_score;
        sc_minimum_reranker_score := minimum_reranker_score |}.

End Retrieval.

(* ===================================================================== *)
(** * The system prompt, the answer step and the entry point *)
(* ===================================================================== *)

Definition NEWLINE : N := 10.

Section SystemPrompt.

(** [template.format(name=value, ...)], string formatting with keyword fields
    only; it raises on a malformed template or on a field of the template
    that is not given. *)
Variable str_format : str → gmap str str → res str.

(** The property [system_message_chat_conversation] of the approach. *)
Variable system_message_chat_conversation : str.

(** [ChatApproach.get_system_prompt]; the override is what
    [overrides.get("prompt_template")] gives, and only a string has
    [startswith]. *)
Definition get_system_prompt (override_prompt : pyval)
    (follow_up_questions_prompt : str) : res str :=
  match override_prompt with
  | PNone =>
      str_format system_message_chat_conversation
        {[ lit "injected_prompt" := [];
           lit "follow_up_questions_prompt" := follow_up_questions_prompt ]}
  | PStr override =>
      if startswith (lit ">>>") override then
        str_format system_message_chat_conversation
          {[ lit "injected_prompt" := drop 3 override ++ [NEWLINE];
             lit "follow_up_questions_prompt" := follow_up_questions_prompt ]}
      else
        str_format override
          {[ lit "follow_up_questions_prompt" := follow_up_questions_prompt ]}
  | _ => Raise AttributeError
  end.

End SystemPrompt.

(** The content parts of a multimodal user turn:
    [{"text": text, "type": "text"}] and
    [{"image_url": url, "type": "image_url"}]. *)
Definition text_part (text : str) : pyval :=
  PDict {[ lit "text" := PStr text; lit "type" := PStr (lit "text") ]}.
Definition image_part (url : str) : pyval :=
  PDict {[ lit "image_url" := PStr url; lit "type" := PStr (lit "image_url") ]}.

(** [overrides.get("gpt4v_input") in ["textAndImages", "texts", None]] *)
Definition include_gtpV_text (overrides : gmap str pyval) : bool :=
  let input := dict_get overrides (lit "gpt4v_input") in
  py_eq_str input (lit "textAndImages") || py_eq_str input (lit "texts")
  || py_is_none input.

(** [overrides.get("gpt4v_input") in ["textAndImages", "images", None]] *)
Definition include_gtpV_images (overrides : gmap str pyval) : bool :=
  let input := dict_get overrides (lit "gpt4v_input") in
  py_eq_str input (lit "textAndImages") || py_eq_str input (lit "images")
  || py_is_none input.

(** The head of the sources block of the vision prompt: two newlines,
    [Sources:], a newline. *)
Definition SOURCES_HEAD : str := [NEWLINE; NEWLINE] ++ lit "Sources:" ++ [NEWLINE].

(** The arguments of the final completion call, and the data points of the
    diagnostics record. *)
Record final_call : Type :=
  { fc_messages : list message;
    fc_temperature : pyval;
    fc_max_tokens : Z;
    fc_stream : bool }.
Record data_points : Type :=
  { dp_text : list str; dp_images : list str }.

Section Answer.

(** A search result. *)
Variable document : Type.

Variable dict_iter : gmap str pyval → list str.
Variable num_tokens_from_messages : message → str → res nat.
Variable json_loads : str → res pyval.
Variable gpt4v_model : str.
Variable chatgpt_token_limit : Z.
Variable query_prompt_template : str.
Variable query_prompt_few_shots : list message.
Variable build_filter : gmap str pyval → pyval → res pyval.
Variable chat_completions_create : list message → res chat_completion.
Variable compute_text_embedding : pyval → res pyval.
Variable compute_image_embedding : pyval → res pyval.
Variable str_format : str → gmap str str → res str.
Variable system_message_chat_conversation : str.
Variable follow_up_questions_prompt_content : str.

(** Collaborators of the answer step: [Approach.search],
    [Approach.get_sources_content(results, use_semantic_captions,
    use_image_citation)] and [core.imageshelper.fetch_image], which gives
    the URL of the image of a result or [None]. *)
Variable search : search_call → res (list document).
Variable get_sources_content : list document → pyval → bool → res (list str).
Variable fetch_image : document → res (option str).

(** The loop over [results] that fills [image_list]: the URLs that are
    not empty, in the order of the results. *)
Fixpoint fetch_images (results : list document) : res (list str) :=
  match results with
  | [] => Ok []
  | result :: rest =>
      url ← fetch_image result;
      urls ← fetch_images rest;
      Ok (if url is Some (c :: t) then (c :: t) :: urls else urls)
  end.

(** [ChatReadRetrieveReadVisionApproach.run_until_final_call] from its
    call of [self.search] to the arguments of the final completion call
    (STEP 2 and STEP 3); of the diagnostics record, the data points.  The
    original question is read again from the history, which the first step
    has read already. *)
Definition vision_run_until_final_call (history : list message)
    (overrides : gmap str pyval) (auth_claims : pyval) (should_stream : bool)
    : res (data_points * final_call) :=
  call ←
    vision_search_call dict_iter num_tokens_from_messages json_loads
      gpt4v_model chatgpt_token_limit query_prompt_template
      query_prompt_few_shots build_filter chat_completions_create
      compute_text_embedding compute_image_embedding history overrides
      auth_claims;
  newest ← last_item history;
  original_user_query ← content_text newest;
  results ← search call;
  sources_content ←
    get_sources_content results (sc_use_semantic_captions call) true;
  let content := str_join [NEWLINE] sources_content in
  system_message ←
    get_system_prompt str_format system_message_chat_conversation
      (dict_get overrides (lit "prompt_template"))
      (if suggest_followup_questions overrides
       then follow_up_questions_prompt_content else []);
  let response_token_limit := 1024 in
  let messages_token_limit := chatgpt_token_limit - response_token_limit in
  let user_content := [text_part original_user_query] in
  let user_content :=
    if include_gtpV_text overrides
    then user_content ++ [text_part (SOURCES_HEAD ++ content)]
    else user_content in
  image_list ←
    (if include_gtpV_images overrides then fetch_images results else Ok []);
  let user_content := user_content ++ (image_part <$> image_list) in
  messages ←
    get_messages_from_history num_tokens_from_messages system_message
      gpt4v_model history (PList user_content) messages_token_limit [];
  Ok ({| dp_text := sources_content; dp_images := image_list |},
      {| fc_messages := messages;
         fc_temperature :=
           dict_get_or overrides (lit "temperature") (PFloat 0%float);
         fc_max_tokens := response_token_limit;
         fc_stream := should_stream |}).

(** Attributes of the retrieve-then-read approach: its model and the class
    constants [system_chat_template], [question] and [answer]. *)
Variable chatgpt_model : str.
Variable system_chat_template : str.
Variable question : str.
Variable answer : str.

(** [RetrieveThenReadApproach.run] from its call of [self.search] to the
    messages of the completion call; [conversation] is its parameter
    [messages].  The builder takes the template and the user content as
    strings. *)
Definition retrievethenread_messages (conversation : list message)
    (overrides : gmap str pyval) (auth_claims : pyval) : res (list message) :=
  call ←
    retrievethenread_search_call build_filter compute_text_embedding
      conversation overrides auth_claims;
  newest ← last_item conversation;
  let q := content newest in
  results ← search call;
  template ←
    (if dict_get_or overrides (lit "prompt_template") (PStr system_chat_template)
       is PStr t then Ok t else Raise TypeError);
  let message_builder := MessageBuilder_new template chatgpt_model in
  sources_content ←
    get_sources_content results (sc_use_semantic_captions call) false;
  let content := str_join [NEWLINE] sources_content in
  q_text ← (if q is PStr t then Ok t else Raise TypeError);
  let user_content :=
    q_text ++ [NEWLINE] ++ lit "Sources:" ++ [NEWLINE; SPACE] ++ content in
  let message_builder :=
    insert_message message_builder USER (PStr user_content) 1 in
  let message_builder :=
    insert_message message_builder ASSISTANT (PStr answer) 1 in
  let message_builder :=
    insert_message message_builder USER (PStr question) 1 in
  Ok (messages message_builder).

End Answer.

Section Run.

(** [run_until_final_call] of the approach, awaited together with the
    coroutine it returns: the diagnostics record with the completed
    response when [should_stream] is false, with the chunks of the stream
    when it is true. *)
Variable run_until_final_call_completion :
  list message → gmap str pyval → pyval → res (pyval * chat_response).
Variable run_until_final_call_stream :
  list message → gmap str pyval → pyval → res (pyval * list event).

(** [ChatApproach.run]: the response, or everything the generator yields.
    [context.get("overrides", {})] has to be a dict to be used. *)
Definition run (messages : list message) (stream : pyval)
    (session_state : pyval) (context : gmap str pyval)
    : res (chat_result + list yielded) :=
  overrides ←
    (if dict_get_or context (lit "overrides") (PDict ∅) is PDict d
     then Ok d else Raise AttributeError);
  let auth_claims := dict_get_or context (lit "auth_claims") (PDict ∅) in
  if stream is PBool false then
    '(extra_info, chat_resp) ←
      run_until_final_call_completion messages overrides auth_claims;
    inl <$> run_without_streaming overrides extra_info session_state chat_resp
  else
    '(extra_info, events) ←
      run_until_final_call_stream messages overrides auth_claims;
    Ok (inr (run_with_streaming overrides extra_info session_state events)).

End Run.

(* ===================================================================== *)
(** * Vocabulary for the properties of the post-processing *)
(* ===================================================================== *)

(** A text that holds no ["<<"] and does not end in ['<'], so that no
    ["<<"] begins in it whatever follows. *)
Definition marker_free (s : str) : Prop := str_index OPEN (s ++ [LT]) = None.

(** The text of a follow-up question the pattern can capture: not empty
    and without ['>']. *)
Definition question_text (q : str) : Prop := q ≠ [] ∧ GT ∉ q.

(** The follow-up block of a response as the follow-up prompt asks for it:
    each question between the markers, followed by a separator. *)
Fixpoint render_followups (items : list (str * str)) : str :=
  match items with
  | [] => []
  | (q, sep) :: rest => OPEN ++ q ++ CLOSE ++ sep ++ render_followups rest
  end.

(** [event["choices"]] in a condition *)
Definition has_choices (e : event) : bool :=
  if choices e is [] then false else true.

(** The follow-up questions a caller receives from the generator. *)
Definition streamed_followups (out : list yielded) : list str :=
  mjoin ((λ y, if y is YFollowup qs then qs else []) <$> out).

(* ===================================================================== *)
(** * Vocabulary for the properties of the streaming loop *)
(* ===================================================================== *)

(** A yielded item that is a chunk holds no ["<<"]. *)
Definition no_marker_chunk (y : yielded) : Prop :=
  if y is YEvent e then str_index OPEN (event_text e) = None else True.

(** The state of the loop: before the first marker the buffer is empty,
    after it the buffer starts with ["<<"]. *)
Definition stream_inv (st : stream_state) : Prop :=
  if followup_questions_started st
  then startswith OPEN (followup_content st) = true
  else followup_content st = [].

(* ===================================================================== *)
(** * The retrieval step seen from the distilled query on *)
(* ===================================================================== *)

Section Distillation.

Variable dict_iter : gmap str pyval → list str.
Variable count : message → str → res nat.
Variable json_loads : str → res pyval.
Variable gpt4v_model : str.
Variable chatgpt_token_limit : Z.
Variable query_prompt_template : str.
Variable query_prompt_few_shots : list message.
Variable build_filter : gmap str pyval → pyval → res pyval.
Variable chat_completions_create : list message → res chat_completion.

(** The vision approach with the embedding services left open. *)
Definition vision_call_with (text_embedding image_embedding : pyval → res pyval) :=
  vision_search_call dict_iter count json_loads gpt4v_model chatgpt_token_limit
    query_prompt_template query_prompt_few_shots build_filter
    chat_completions_create text_embedding image_embedding.

(** The distilled query of a history, as the vision approach obtains it. *)
Definition distilled_query (history : list message) : res (str * pyval) :=
  newest ← last_item history;
  original_user_query ← content_text newest;
  query_messages ←
    vision_query_messages count gpt4v_model chatgpt_token_limit
      query_prompt_template query_prompt_few_shots history original_user_query;
  completion ← chat_completions_create query_messages;
  query_text ← get_search_query json_loads completion original_user_query;
  Ok (original_user_query, query_text).

End Distillation.

(* ===================================================================== *)
(** * Collaborators of the examples *)
(* ===================================================================== *)

(** A counter that refuses a content that is a dict, as the token counter
    of the tests does. *)
Definition strict_count : message → str → res nat :=
  λ m _, if content m is PDict _ then Raise ValueError else Ok 4%nat.

(** Collaborators of the examples: a completion service that always
    answers with the same text, an embedding service, no filter. *)
Definition answer_with (text : str) : list message → res chat_completion :=
  λ _, Ok {| cc_choices := [{| msg_content := Some text;
                               msg_tool_calls := None |}] |}.
Definition unit_embedding : pyval → res pyval :=
  λ _, Ok (PList [PInt 1; PInt 0]).
Definition image_embedding : pyval → res pyval :=
  λ _, Ok (PList [PInt 0; PInt 1]).
Definition failing_embedding : pyval → res pyval :=
  λ _, Raise (OtherError (lit "embedding service down")).
Definition no_filter : gmap str pyval → pyval → res pyval := λ _ _, Ok PNone.
Definition failing_filter : gmap str pyval → pyval → res pyval :=
  λ _ _, Raise (OtherError (lit "no access to the security filter")).
Definition keys_in_map_order : gmap str pyval → list str :=
  λ d, (map_to_list d).*1.
Definition notice_history : list message :=
  [Message USER (PStr (lit "What is the notice period?"))].

(** Collaborators of the examples for the answer step: documents are their
    own names, two are found, every document has an image, and formatting
    leaves the template as it is. *)
Definition found_documents : search_call → res (list (list N)) :=
  λ _, Ok [lit "lease.pdf"; lit "notice.pdf"].
Definition names_as_sources : list (list N) → pyval → bool → res (list (list N)) :=
  λ documents _ _, Ok documents.
Definition image_of_name : list N → res (option (list N)) :=
  λ name, Ok (Some (lit "data:" ++ name)).
Definition failing_fetch : list N → res (option (list N)) :=
  λ _, Raise (OtherError (lit "blob store down")).
Definition format_as_is : list N → gmap (list N) (list N) → res (list N) :=
  λ template _, Ok template.

(* ===================================================================== *)
(** * Facts about substring search *)
(* ===================================================================== *)

Lemma startswith_app p s : startswith p s = true ↔ ∃ r, s = p ++ r.
Proof.
  revert s. induction p as [|a p IH]; intros s; simpl.
  - split; [eauto|done].
  - destruct s as [|b s].
    + split; [done|]. by intros [r Hr].
    + case_decide as Hab.
      * subst b. rewrite IH. split; intros [r Hr]; exists r; simplify_eq/=; done.
      * split; [done|]. intros [r Hr]. simplify_eq/=.
Qed.

Lemma startswith_nil_false sub : sub ≠ [] → startswith sub [] = false.
Proof. by destruct sub. Qed.

(** [str_index] finds nothing exactly when no suffix starts with [sub]. *)
Lemma str_index_None sub s :
  str_index sub s = None ↔ ∀ k, startswith sub (drop k s) = false.
Proof.
  induction s as [|c t IH]; simpl.
  - destruct (startswith sub []) eqn:E.
    + split; [done|]. intros H. specialize (H 0%nat). simpl in H. congruence.
    + split; [|done]. intros _ k. by rewrite drop_nil.
  - destruct (startswith sub (c :: t)) eqn:E.
    + split; [done|]. intros H. specialize (H 0%nat). simpl in H. congruence.
    + rewrite fmap_None, IH. split.
      * intros H [|k]; [done|]. apply H.
      * intros H k. apply (H (S k)).
Qed.

(** [str_index] returns the first position at which [sub] starts. *)
Lemma str_index_Some sub s i :
  str_index sub s = Some i ↔
  startswith sub (drop i s) = true ∧ (i ≤ length s)%nat ∧
  ∀ k, (k < i)%nat → startswith sub (drop k s) = false.
Proof.
  revert i. induction s as [|c t IH]; intros i; simpl.
  - destruct (startswith sub []) eqn:E.
    + split.
      * intros [= <-]. split; [done|]. split; [lia|]. intros; lia.
      * intros (_ & Hi & _). f_equal. lia.
    + split; [done|]. intros (H & _ & _). rewrite drop_nil in H. congruence.
  - destruct (startswith sub (c :: t)) eqn:E.
    + split.
      * intros [= <-]. split; [done|]. split; [lia|]. intros; lia.
      * intros (_ & _ & H). destruct i as [|i]; [done|].
        specialize (H 0%nat ltac:(lia)). simpl in H. congruence.
    + rewrite fmap_Some. split.
      * intros (j & Hj & ->). apply IH in Hj as (H1 & H2 & H3).
        split; [done|]. split; [lia|].
        intros [|k] Hk; [done|]. apply H3. lia.
      * intros (H1 & H2 & H3). destruct i as [|i]; [simpl in H1; congruence|].
        exists i. split; [|done]. apply IH. split; [done|]. split; [lia|].
        intros k Hk. apply (H3 (S k)). lia.
Qed.

(** The text before the first occurrence does not contain [sub]. *)
Lemma str_index_take sub s i :
  sub ≠ [] → str_index sub s = Some i → str_index sub (take i s) = None.
Proof.
  intros Hne [_ [Hi Hfirst]]%str_index_Some. apply str_index_None. intros k.
  destruct (decide (k < i)%nat) as [Hk|Hk].
  - destruct (startswith sub (drop k (take i s))) eqn:E; [|done].
    apply startswith_app in E as [r Hr].
    rewrite <- (Hfirst k Hk). symmetry. apply startswith_app.
    exists (r ++ drop i s).
    rewrite <- (take_drop i s) at 1. rewrite drop_app_le by (rewrite length_take; lia).
    rewrite Hr. by rewrite <- app_assoc.
  - rewrite drop_ge by (rewrite length_take; lia).
    by apply startswith_nil_false.
Qed.

(** An occurrence anywhere is found. *)
Lemma str_index_occurs sub p r : is_Some (str_index sub (p ++ sub ++ r)).
Proof.
  destruct (str_index sub (p ++ sub ++ r)) eqn:E; [eauto|].
  rewrite str_index_None in E. specialize (E (length p)).
  rewrite drop_app_length in E.
  assert (startswith sub (sub ++ r) = true) by (apply startswith_app; eauto).
  congruence.
Qed.

(** A suffix of a text without [sub] is without [sub]. *)
Lemma str_index_None_drop sub s k :
  str_index sub s = None → str_index sub (drop k s) = None.
Proof.
  rewrite !str_index_None. intros H j. rewrite drop_drop. apply H.
Qed.

(** ** The first piece of a split *)

Lemma first_piece_split c sep s :
  first_piece (str_split (c :: sep) s) =
  match str_index (c :: sep) s with Some i => take i s | None => s end.
Proof.
  rewrite str_split_equation_2.
  generalize (inspect (str_index (c :: sep) s)).
  intros [[i|] H]; simpl; by rewrite H.
Qed.

(** The scan finds no follow-up question in a text without ["<<"]. *)
Lemma findall_no_attempt s :
  (∀ k, match_followup (drop k s) = None) → findall_followup s = [].
Proof.
  funelim (findall_followup s); intros Hno; [done| |].
  - specialize (Hno 0%nat). simpl in Hno. congruence.
  - apply H. intros k. apply (Hno (S k)).
Qed.

Lemma match_followup_startswith s m :
  match_followup s = Some m → startswith OPEN s = true.
Proof.
  destruct m as [body rest]. intros [-> _]%match_followup_shape.
  apply startswith_app. eauto.
Qed.

Lemma findall_no_open s :
  str_index OPEN s = None → findall_followup s = [].
Proof.
  rewrite str_index_None. intros H. apply findall_no_attempt. intros k.
  destruct (match_followup (drop k s)) as [m|] eqn:E; [|done].
  apply match_followup_startswith in E. rewrite H in E. done.
Qed.

(** What [extract_followup_questions] leaves as visible content: the text
    before the first ["<<"], all of it when there is none. *)
Lemma extract_visible content :
  (extract_followup_questions content).1 =
  match str_index OPEN content with
  | Some i => take i content
  | None => content
  end.
Proof. apply first_piece_split. Qed.

Lemma extract_visible_no_open content :
  str_index OPEN (extract_followup_questions content).1 = None.
Proof.
  rewrite extract_visible. destruct (str_index OPEN content) eqn:E; [|done].
  by apply str_index_take.
Qed.

(* ===================================================================== *)
(** * Follow-up extraction *)
(* ===================================================================== *)

(** The scenario of the specification. *)
Example extract_scenario :
  extract_followup_questions (lit "The answer. <<Q1?>><<Q2?>>")
  = (lit "The answer. ", [lit "Q1?"; lit "Q2?"]).
Proof. vm_compute. reflexivity. Qed.

(** C8: follow-up extraction is idempotent on already-clean text.  For
    every string [x], a second extraction pass over the visible content [v]
    left by a first pass yields no follow-up questions and finds no
    remaining marker: it returns [v] unchanged together with an empty list
    of follow-up questions, and [v] contains no open marker. *)
Theorem C8_extract_idempotent (x : str) :
  let v := (extract_followup_questions x).1 in
  extract_followup_questions v = (v, []) ∧ str_contains OPEN v = false.
Proof.
  intros v. pose proof (extract_visible_no_open x) as Hv. fold v in Hv.
  split.
  - apply injective_projections; simpl.
    + change (first_piece _) with (extract_followup_questions v).1.
      rewrite extract_visible. by rewrite Hv.
    + by apply findall_no_open.
  - unfold str_contains. by rewrite Hv.
Qed.

(* ===================================================================== *)
(** * Prompt assembly under a token ceiling *)
(* ===================================================================== *)

Lemma res_bind_Ok {A B} (a : A) (f : A → res B) : Ok a ≫= f = f a.
Proof. done. Qed.

Lemma message_eta m : Message (role m) (content m) = m.
Proof. by destruct m. Qed.

Lemma list_insert_at_end {A} (x : A) l : list_insert_at (length l) x l = l ++ [x].
Proof. unfold list_insert_at. by rewrite firstn_all, drop_all. Qed.

Lemma list_insert_at_app {A} (x : A) pre post :
  list_insert_at (length pre) x (pre ++ post) = pre ++ x :: post.
Proof. unfold list_insert_at. by rewrite take_app_length, drop_app_length. Qed.

(** The few-shot loop: the shots end up behind the system prompt in their
    original order. *)
Lemma insert_shots_messages shots mb s tail :
  messages mb = s :: tail →
  let mb' := foldl (λ mb shot, insert_message mb (role shot) (content shot) 1)
                   mb shots in
  messages mb' = s :: reverse shots ++ tail ∧ model mb' = model mb.
Proof.
  revert mb tail. induction shots as [|shot shots IH]; intros mb tail Hmb; simpl.
  - done.
  - destruct (IH (insert_message mb (role shot) (content shot) 1) (shot :: tail))
      as [IH1 IH2].
    { simpl. rewrite Hmb. unfold list_insert_at. simpl. rewrite drop_0.
      by rewrite message_eta. }
    split; [|done]. rewrite IH1, reverse_cons, <- app_assoc. done.
Qed.

Section AssemblyFacts.

Variable count : message → str → res nat.

Lemma count_existing_total mb acc l :
  count_existing count mb acc l
  = (λ t, (acc + t)%nat) <$> total_cost count (model mb) l.
Proof.
  revert acc. induction l as [|m l IH]; intros acc; simpl.
  - f_equal. lia.
  - unfold count_tokens_for_message.
    destruct (count m (model mb)) as [n|e]; simpl; [|done].
    rewrite IH. destruct (total_cost count (model mb) l); simpl; [|done].
    f_equal. lia.
Qed.

Lemma total_cost_app model_id l1 l2 :
  total_cost count model_id (l1 ++ l2)
  = (a ← total_cost count model_id l1;
     b ← total_cost count model_id l2; Ok (a + b)%nat).
Proof.
  induction l1 as [|m l1 IH]; simpl.
  - by destruct (total_cost count model_id l2).
  - destruct (count m model_id) as [n|e]; simpl; [|done]. rewrite IH.
    destruct (total_cost count model_id l1); simpl; [|done].
    destruct (total_cost count model_id l2); simpl; [|done].
    f_equal. lia.
Qed.

(** The history loop inserts what [accepted] selects, oldest first, at
    the insertion point. *)
Lemma insert_history_accepted mb pre post max_tokens total nto :
  messages mb = pre ++ post →
  insert_history count mb (length pre) max_tokens total nto
  = (λ acc, {| messages := pre ++ reverse acc ++ post; model := model mb |})
    <$> accepted count (model mb) max_tokens total nto.
Proof.
  revert mb post total. induction nto as [|m nto IH]; intros mb post total Hmb.
  - simpl. destruct mb; simpl in *. by subst.
  - simpl. unfold count_tokens_for_message.
    destruct (count m (model mb)) as [c|e]; simpl; [|done].
    destruct (Z.of_nat (total + c) >? max_tokens).
    + simpl. destruct mb; simpl in *. by subst.
    + rewrite (IH _ (m :: post)).
      * simpl. destruct (accepted _ _ _ _ nto); simpl; [|done].
        f_equal. f_equal. rewrite reverse_cons, <- app_assoc. done.
      * simpl. rewrite Hmb, list_insert_at_app. by rewrite message_eta.
Qed.

(** What is accepted is a prefix of the walk, and its cost keeps the
    running total within the ceiling. *)
Lemma accepted_prefix model_id max_tokens total nto acc :
  accepted count model_id max_tokens total nto = Ok acc →
  ∃ k c, acc = take k nto ∧ total_cost count model_id acc = Ok c ∧
         (Z.of_nat total ≤ max_tokens → Z.of_nat (total + c) ≤ max_tokens).
Proof.
  revert total acc. induction nto as [|m nto IH]; intros total acc; simpl.
  - intros [= <-]. exists 0%nat, 0%nat. split; [done|]. split; [done|]. lia.
  - destruct (count m model_id) as [c|e] eqn:Ec; simpl; [|done].
    destruct (Z.gtb_spec (Z.of_nat (total + c)) max_tokens) as [Hgt|Hfit].
    + intros [= <-]. exists 0%nat, 0%nat. split; [done|]. split; [done|]. lia.
    + destruct (accepted count model_id max_tokens (total + c) nto) as [acc'|] eqn:Eacc;
        simpl; [|done].
      intros [= <-]. destruct (IH _ _ Eacc) as (k & c' & -> & Hc' & Hle).
      exists (S k), (c + c')%nat. split; [done|]. split.
      * simpl. rewrite Ec. simpl. rewrite Hc'. done.
      * intros _. rewrite Nat.add_assoc. apply Hle. lia.
Qed.

(** [get_messages_from_history] in closed form. *)
Lemma get_messages_from_history_eq system_prompt model_id history
    user_content max_tokens few_shots :
  get_messages_from_history count system_prompt model_id history
    user_content max_tokens few_shots
  = (base ← total_cost count model_id
               (mandatory system_prompt few_shots user_content);
     acc ← accepted count model_id max_tokens base
             (reverse (all_but_last history));
     Ok (Message SYSTEM (PStr system_prompt) :: few_shots
         ++ reverse acc ++ [Message USER user_content])).
Proof.
  unfold get_messages_from_history.
  destruct (insert_shots_messages (reverse few_shots)
              (MessageBuilder_new system_prompt model_id)
              (Message SYSTEM (PStr system_prompt)) []) as [Hm Hmodel]; [done|].
  rewrite reverse_involutive, app_nil_r in Hm.
  set (mb1 := foldl _ _ _) in *.
  set (sys := Message SYSTEM (PStr system_prompt)) in *.
  assert (Hlen : (length few_shots + 1)%nat = length (sys :: few_shots))
    by (simpl; lia).
  rewrite Hlen.
  set (mb2 := insert_message mb1 USER user_content _).
  assert (Hm2 : messages mb2 = (sys :: few_shots) ++ [Message USER user_content]).
  { unfold mb2. cbn [messages insert_message]. rewrite Hm.
    apply list_insert_at_end. }
  assert (Hmodel2 : model mb2 = model_id) by (unfold mb2; simpl; by rewrite Hmodel).
  rewrite count_existing_total, Hm2, Hmodel2. unfold mandatory.
  change (Message SYSTEM (PStr system_prompt) :: few_shots ++ ?u)
    with ((sys :: few_shots) ++ u).
  destruct (total_cost count model_id ((sys :: few_shots) ++ _)) as [base|e];
    [|done].
  cbn [fmap res_fmap mbind res_bind Nat.add].
  rewrite (insert_history_accepted mb2 (sys :: few_shots)
             [Message USER user_content]) by done.
  rewrite Hmodel2.
  destruct (accepted count model_id max_tokens base _) as [acc|e]; [|done].
  done.
Qed.

End AssemblyFacts.

Section BudgetFacts.

Variable count : message → str → res nat.

Lemma total_cost_app_Ok model_id l1 l2 t :
  total_cost count model_id (l1 ++ l2) = Ok t ↔
  ∃ a b, total_cost count model_id l1 = Ok a ∧
         total_cost count model_id l2 = Ok b ∧ t = (a + b)%nat.
Proof.
  rewrite total_cost_app. split.
  - destruct (total_cost count model_id l1) as [a|]; simpl; [|done].
    destruct (total_cost count model_id l2) as [b|]; simpl; [|done].
    intros [= <-]. eauto.
  - intros (a & b & -> & -> & ->). done.
Qed.

Lemma total_cost_cons_Ok model_id m l t :
  total_cost count model_id (m :: l) = Ok t ↔
  ∃ a b, count m model_id = Ok a ∧
         total_cost count model_id l = Ok b ∧ t = (a + b)%nat.
Proof.
  simpl. split.
  - destruct (count m model_id) as [a|]; simpl; [|done].
    destruct (total_cost count model_id l) as [b|]; simpl; [|done].
    intros [= <-]. eauto.
  - intros (a & b & -> & -> & ->). done.
Qed.

Lemma total_cost_reverse model_id l t :
  total_cost count model_id l = Ok t →
  total_cost count model_id (reverse l) = Ok t.
Proof.
  revert t. induction l as [|m l IH]; intros t; [done|].
  intros (a & b & Ha & Hb & ->)%total_cost_cons_Ok.
  rewrite reverse_cons. apply total_cost_app_Ok.
  exists b, a. split; [by apply IH|]. split; [|lia].
  simpl. rewrite Ha. simpl. f_equal. lia.
Qed.

Lemma total_cost_total model_id l :
  (∀ m, ∃ n, count m model_id = Ok n) →
  ∃ t, total_cost count model_id l = Ok t.
Proof.
  intros Hall. induction l as [|m l [t IH]]; simpl; [eauto|].
  destruct (Hall m) as [n ->]. rewrite IH. simpl. eauto.
Qed.

Lemma accepted_total model_id max_tokens total l :
  (∀ m, ∃ n, count m model_id = Ok n) →
  ∃ acc, accepted count model_id max_tokens total l = Ok acc.
Proof.
  intros Hall. revert total. induction l as [|m l IH]; intros total; simpl;
    [eauto|].
  destruct (Hall m) as [n ->]. simpl.
  destruct (Z.of_nat (total + n) >? max_tokens); [eauto|].
  destruct (IH (total + n)%nat) as [acc ->]. simpl. eauto.
Qed.

(** The walk stops at the first message that does not fit, whatever
    follows it. *)
Lemma accepted_cutoff model_id max_tokens l : ∀ k total,
  (∀ j, (j < k)%nat → ∃ c,
      total_cost count model_id (take (S j) l) = Ok c ∧
      Z.of_nat (total + c) ≤ max_tokens) →
  (∃ c, total_cost count model_id (take (S k) l) = Ok c ∧
        Z.of_nat (total + c) > max_tokens) →
  (k < length l)%nat →
  accepted count model_id max_tokens total l = Ok (take k l).
Proof.
  induction l as [|m l IH]; intros k total Hfit Hover Hk; simpl in Hk; [lia|].
  destruct k as [|k].
  - destruct Hover as (c & Hc & Hgt).
    change (take 1 (m :: l)) with (m :: take 0 l) in Hc.
    apply total_cost_cons_Ok in Hc as (a & b & Ha & Hb & ->).
    rewrite take_0 in Hb. injection Hb as <-.
    cbn [accepted]. rewrite Ha. simpl.
    destruct (Z.gtb_spec (Z.of_nat (total + a)) max_tokens); [done|lia].
  - destruct (Hfit 0%nat ltac:(lia)) as (c0 & Hc0 & Hle0).
    change (take 1 (m :: l)) with (m :: take 0 l) in Hc0.
    apply total_cost_cons_Ok in Hc0 as (n & b & En & Hb & ->).
    rewrite take_0 in Hb. injection Hb as <-.
    cbn [accepted]. rewrite En. simpl.
    destruct (Z.gtb_spec (Z.of_nat (total + n)) max_tokens); [lia|].
    rewrite (IH k (total + n)%nat); [done| | |lia].
    + intros j Hj. destruct (Hfit (S j) ltac:(lia)) as (c & Hc & Hle).
      change (take (S (S j)) (m :: l)) with (m :: take (S j) l) in Hc.
      apply total_cost_cons_Ok in Hc as (a & b & Ha & Hb & ->).
      rewrite En in Ha. injection Ha as <-.
      exists b. split; [done|]. lia.
    + destruct Hover as (c & Hc & Hgt).
      change (take (S (S k)) (m :: l)) with (m :: take (S k) l) in Hc.
      apply total_cost_cons_Ok in Hc as (a & b & Ha & Hb & ->).
      rewrite En in Ha. injection Ha as <-.
      exists b. split; [done|]. lia.
Qed.

(** When everything fits, everything is accepted. *)
Lemma accepted_all model_id max_tokens l : ∀ total c,
  total_cost count model_id l = Ok c →
  Z.of_nat (total + c) ≤ max_tokens →
  accepted count model_id max_tokens total l = Ok l.
Proof.
  induction l as [|m l IH]; intros total c; [done|].
  intros (a & b & Ha & Hb & ->)%total_cost_cons_Ok Hle. simpl.
  rewrite Ha. simpl.
  destruct (Z.gtb_spec (Z.of_nat (total + a)) max_tokens); [lia|].
  rewrite (IH (total + a)%nat b); [done|done|lia].
Qed.

End BudgetFacts.

(** C3 (as the specification words it): the returned list costs at most the
    ceiling.  With one few-shot message, four tokens per message and the
    ceiling 8, which covers the system prompt and the new user turn, the
    returned list of three messages costs 12. *)
Lemma C3_cost_exceeds_ceiling :
  let count := flat_count 4 in
  let gpt4 := lit "gpt-4" in
  let sys := Message SYSTEM (PStr (lit "S")) in
  let shot := Message USER (PStr (lit "F")) in
  let new := Message USER (PStr (lit "Q")) in
  get_messages_from_history count (lit "S") gpt4 [new] (PStr (lit "Q")) 8 [shot]
  = Ok [sys; shot; new] ∧
  total_cost count gpt4 [sys; new] = Ok 8%nat ∧
  total_cost count gpt4 [sys; shot; new] = Ok 12%nat ∧
  ¬ (∀ msgs t,
       get_messages_from_history count (lit "S") gpt4 [new] (PStr (lit "Q")) 8
         [shot] = Ok msgs →
       total_cost count gpt4 msgs = Ok t → Z.of_nat t ≤ 8).
Proof.
  split; [vm_compute; reflexivity|]. split; [reflexivity|].
  split; [reflexivity|].
  intros H. specialize (H _ 12%nat eq_refl eq_refl). lia.
Qed.

(** C3 (amended): [get_messages_from_history] returns a list whenever the
    token counter succeeds on every message; whenever it returns, the
    system prompt is at index 0 and the new user turn is last, for every
    ceiling, and the total estimated cost of the list is at most the
    ceiling provided the ceiling covers the system prompt, all few-shot
    messages and the new user turn together. *)
Theorem C3_assembly_within_ceiling (count : message → str → res nat)
    (system_prompt model_id : str) (history : list message)
    (user_content : pyval) (max_tokens : Z) (few_shots : list message) :
  let result :=
    get_messages_from_history count system_prompt model_id history
      user_content max_tokens few_shots in
  ((∀ m, ∃ n, count m model_id = Ok n) → ∃ msgs, result = Ok msgs) ∧
  ∀ msgs, result = Ok msgs →
    head msgs = Some (Message SYSTEM (PStr system_prompt)) ∧
    last msgs = Some (Message USER user_content) ∧
    ∃ base t,
      total_cost count model_id
        (mandatory system_prompt few_shots user_content) = Ok base ∧
      total_cost count model_id msgs = Ok t ∧
      (Z.of_nat base ≤ max_tokens → Z.of_nat t ≤ max_tokens).
Proof.
  intros result. unfold result. rewrite get_messages_from_history_eq. split.
  - intros Hall.
    destruct (total_cost_total count model_id
                (mandatory system_prompt few_shots user_content) Hall)
      as [base ->]. simpl.
    destruct (accepted_total count model_id max_tokens base
                (reverse (all_but_last history)) Hall) as [acc ->].
    simpl. eauto.
  - intros msgs.
    destruct (total_cost count model_id _) as [base|] eqn:Hbase; simpl; [|done].
    destruct (accepted count model_id max_tokens base _) as [acc|] eqn:Hacc;
      simpl; [|done].
    intros [= <-]. split; [done|]. split.
    { rewrite (app_assoc _ _ [_]), app_comm_cons. apply last_snoc. }
    destruct (accepted_prefix count _ _ _ _ _ Hacc) as (k & c & _ & Hc & Hle).
    exists base, (base + c)%nat. split; [done|]. split; [|done].
    unfold mandatory in Hbase.
    apply total_cost_cons_Ok in Hbase as (a & b & Ha & Hb & ->).
    apply total_cost_app_Ok in Hb as (f & u & Hf & Hu & ->).
    apply total_cost_cons_Ok. exists a, (f + (c + u))%nat.
    split; [done|]. split; [|lia].
    apply total_cost_app_Ok. exists f, (c + u)%nat.
    split; [done|]. split; [|done].
    apply total_cost_app_Ok. exists c, u.
    split; [by apply total_cost_reverse|]. done.
Qed.

Lemma C3_assembly_within_ceiling_witness :
  let count := flat_count 4 in
  let history :=
    [Message USER (PStr (lit "Q1")); Message ASSISTANT (PStr (lit "A1"));
     Message USER (PStr (lit "Q2"))] in
  ∃ msgs t,
    get_messages_from_history count (lit "S") (lit "gpt-4") history
      (PStr (lit "Q2")) 13 [] = Ok msgs ∧
    head msgs = Some (Message SYSTEM (PStr (lit "S"))) ∧
    last msgs = Some (Message USER (PStr (lit "Q2"))) ∧
    total_cost count (lit "gpt-4") msgs = Ok t ∧ Z.of_nat t ≤ 13.
Proof.
  intros count history.
  destruct (C3_assembly_within_ceiling count (lit "S") (lit "gpt-4") history
              (PStr (lit "Q2")) 13 []) as [Hret Hprop].
  destruct (Hret (λ m, ex_intro _ 4%nat eq_refl)) as [msgs Hmsgs].
  destruct (Hprop msgs Hmsgs) as (Hhd & Hlast & base & t & Hbase & Ht & Hle).
  exists msgs, t. repeat split; try assumption.
  apply Hle. vm_compute in Hbase. injection Hbase as <-. lia.
Defined.

(** C4: history truncation is a single cutoff.  Walking the history
    newest-to-oldest (its last entry left out), if the message at position
    [k] is the first whose cost pushes the running total over the ceiling,
    then the assembled list holds, between the few-shot block and the new
    user turn, exactly the [k] newer messages in chronological order: the
    message at [k] and every older one is left out, whatever the older ones
    cost. *)
Theorem C4_single_cutoff (count : message → str → res nat)
    (system_prompt model_id : str) (history : list message)
    (user_content : pyval) (max_tokens : Z) (few_shots : list message)
    (k base : nat) :
  let newest_to_oldest := reverse (all_but_last history) in
  total_cost count model_id
    (mandatory system_prompt few_shots user_content) = Ok base →
  (∀ j, (j < k)%nat → ∃ c,
      total_cost count model_id (take (S j) newest_to_oldest) = Ok c ∧
      Z.of_nat (base + c) ≤ max_tokens) →
  (∃ c, total_cost count model_id (take (S k) newest_to_oldest) = Ok c ∧
        Z.of_nat (base + c) > max_tokens) →
  (k < length newest_to_oldest)%nat →
  get_messages_from_history count system_prompt model_id history
    user_content max_tokens few_shots
  = Ok (Message SYSTEM (PStr system_prompt) :: few_shots
        ++ reverse (take k newest_to_oldest)
        ++ [Message USER user_content]).
Proof.
  intros nto Hbase Hfit Hover Hk.
  rewrite get_messages_from_history_eq, Hbase. simpl. fold nto.
  by rewrite (accepted_cutoff count model_id max_tokens nto k base).
Qed.

Lemma C4_single_cutoff_witness :
  let history :=
    [Message USER (PStr (lit "a")); Message ASSISTANT (PStr (lit "bbbbbbbb"));
     Message USER (PStr (lit "cc")); Message ASSISTANT (PStr (lit "dd"));
     Message USER (PStr (lit "e"))] in
  get_messages_from_history length_count (lit "S") (lit "gpt-4") history
    (PStr (lit "e")) 8 []
  = Ok [Message SYSTEM (PStr (lit "S")); Message USER (PStr (lit "cc"));
        Message ASSISTANT (PStr (lit "dd")); Message USER (PStr (lit "e"))].
Proof.
  intros history.
  apply (C4_single_cutoff length_count (lit "S") (lit "gpt-4") history
           (PStr (lit "e")) 8 [] 2 2).
  - reflexivity.
  - intros j Hj. destruct j as [|[|j]]; [| |lia].
    + exists 2%nat. split; [reflexivity|]. lia.
    + exists 4%nat. split; [reflexivity|]. lia.
  - exists 12%nat. split; [reflexivity|]. lia.
  - simpl. lia.
Defined.

(** C5 (as the specification words it): the two retained turns come in the
    order A1 then Q1.  The assembled list has them in the order Q1 then A1. *)
Lemma C5_order_is_not_A1_Q1 :
  let sys := Message SYSTEM (PStr (lit "S")) in
  let shot1 := Message USER (PStr (lit "F1")) in
  let shot2 := Message ASSISTANT (PStr (lit "F2")) in
  let Q1 := Message USER (PStr (lit "Q1")) in
  let A1 := Message ASSISTANT (PStr (lit "A1")) in
  let Q2 := Message USER (PStr (lit "Q2")) in
  let result :=
    get_messages_from_history (flat_count 4) (lit "S") (lit "gpt-4")
      [Q1; A1; Q2] (PStr (lit "Q2")) 8100 [shot1; shot2] in
  result = Ok [sys; shot1; shot2; Q1; A1; Q2] ∧
  result ≠ Ok [sys; shot1; shot2; A1; Q1; Q2].
Proof. split; [vm_compute; reflexivity|vm_compute; discriminate]. Qed.

(** C5 (amended): for the history [Q1 (user), A1 (assistant), Q2 (user)]
    with Q2 as the new user turn and a ceiling that covers all messages,
    the assembled list is [system, few-shots..., Q1, A1, Q2]: the two
    retained turns keep their chronological order, right behind the
    few-shot block, and the new user turn is last. *)
Theorem C5_history_order (count : message → str → res nat)
    (system_prompt model_id : str) (q1 a1 q2 : pyval) (max_tokens : Z)
    (few_shots : list message) (t : nat) :
  let Q1 := Message USER q1 in
  let A1 := Message ASSISTANT a1 in
  let Q2 := Message USER q2 in
  let all := Message SYSTEM (PStr system_prompt) :: few_shots ++ [Q1; A1; Q2] in
  total_cost count model_id all = Ok t →
  Z.of_nat t ≤ max_tokens →
  get_messages_from_history count system_prompt model_id [Q1; A1; Q2] q2
    max_tokens few_shots = Ok all.
Proof.
  intros Q1 A1 Q2 all Hall Hle. subst all Q1 A1 Q2.
  apply total_cost_cons_Ok in Hall as (s & r & Hs & Hr & ->).
  apply total_cost_app_Ok in Hr as (f & h & Hf & Hh & ->).
  apply total_cost_cons_Ok in Hh as (c1 & h1 & Hc1 & Hh1 & ->).
  apply total_cost_cons_Ok in Hh1 as (c2 & h2 & Hc2 & Hh2 & ->).
  rewrite get_messages_from_history_eq. unfold mandatory.
  assert (Hbase : total_cost count model_id
            (Message SYSTEM (PStr system_prompt) :: few_shots
             ++ [Message USER q2])
          = Ok (s + (f + h2))%nat).
  { apply total_cost_cons_Ok. exists s, (f + h2)%nat. split; [done|].
    split; [|done]. apply total_cost_app_Ok. eauto. }
  rewrite Hbase, res_bind_Ok.
  change (reverse (all_but_last [?x; ?y; ?z])) with [y; x].
  rewrite (accepted_all count model_id max_tokens
             [Message ASSISTANT a1; Message USER q1] _ (c2 + (c1 + 0))%nat).
  - done.
  - simpl. rewrite Hc2. simpl. rewrite Hc1. done.
  - lia.
Qed.

Lemma C5_history_order_witness :
  get_messages_from_history (flat_count 4) (lit "S") (lit "gpt-4")
    [Message USER (PStr (lit "Q1")); Message ASSISTANT (PStr (lit "A1"));
     Message USER (PStr (lit "Q2"))] (PStr (lit "Q2")) 8100
    [Message USER (PStr (lit "F1")); Message ASSISTANT (PStr (lit "F2"))]
  = Ok [Message SYSTEM (PStr (lit "S"));
        Message USER (PStr (lit "F1")); Message ASSISTANT (PStr (lit "F2"));
        Message USER (PStr (lit "Q1")); Message ASSISTANT (PStr (lit "A1"));
        Message USER (PStr (lit "Q2"))].
Proof.
  apply (C5_history_order (flat_count 4) (lit "S") (lit "gpt-4")
           (PStr (lit "Q1")) (PStr (lit "A1")) (PStr (lit "Q2")) 8100
           [Message USER (PStr (lit "F1")); Message ASSISTANT (PStr (lit "F2"))]
           24).
  - reflexivity.
  - lia.
Defined.

(* ===================================================================== *)
(** * An open marker that is never closed *)
(* ===================================================================== *)

(** Behind a ["<<"] that no [">>"] follows, no attempt of the pattern
    succeeds. *)
Lemma no_attempt_without_close (x : str) (i : nat) :
  str_index OPEN x = Some i →
  str_index CLOSE (drop i x) = None →
  ∀ k, match_followup (drop k x) = None.
Proof.
  intros (_ & _ & Hfirst)%str_index_Some Hclose k.
  destruct (match_followup (drop k x)) as [[body rest]|] eqn:E; [|done].
  exfalso. destruct (decide (k < i)%nat) as [Hk|Hk].
  - apply match_followup_startswith in E. rewrite (Hfirst k Hk) in E. done.
  - apply match_followup_shape in E as [E _].
    assert (Hdrop : drop k x = drop (k - i) (drop i x))
      by (rewrite drop_drop; f_equal; lia).
    apply (str_index_None_drop _ _ (k - i)) in Hclose.
    rewrite <- Hdrop, E in Hclose.
    pose proof (str_index_occurs CLOSE (OPEN ++ body) rest) as [j Hj].
    rewrite <- app_assoc in Hj. congruence.
Qed.

(** C9 (as it is stated): a string with an open marker that no close
    marker follows gives an empty list of follow-up questions.  In
    ["A <<Q1>> <<Q2"] the marker at index 9 is followed by no [">>"], yet
    the question of the closed marker in front of it is extracted. *)
Lemma C9_closed_marker_before_unclosed :
  let x := lit "A <<Q1>> <<Q2" in
  startswith OPEN (drop 9 x) = true ∧
  str_index CLOSE (drop 9 x) = None ∧
  extract_followup_questions x = (lit "A ", [lit "Q1"]) ∧
  (extract_followup_questions x).2 ≠ [].
Proof.
  split; [reflexivity|]. split; [reflexivity|].
  split; [vm_compute; reflexivity|]. vm_compute. discriminate.
Qed.

(** C9 (amended): for every string that holds ["<<"],
    [extract_followup_questions] returns the text before the first ["<<"]
    as visible content.  When moreover no [">>"] follows the first ["<<"],
    the list of follow-up questions is empty; so without streaming,
    follow-up questions being requested and the context being a dict, the
    answer returned holds that prefix only, with an empty list of
    questions: the text from the marker on is dropped, and no exception is
    raised. *)
Theorem C9_unclosed_marker_dropped (x : str) (i : nat) :
  str_index OPEN x = Some i →
  (extract_followup_questions x).1 = take i x ∧
  (str_index CLOSE (drop i x) = None →
   extract_followup_questions x = (take i x, []) ∧
   ∀ overrides (context : gmap str pyval) session_state more other,
     suggest_followup_questions overrides = true →
     run_without_streaming overrides (PDict context) session_state
       {| resp_content := Some x :: more; resp_other := other |}
     = Ok {| result_content := Some (take i x);
             result_context := PDict context;
             result_followup_questions := Some [];
             result_session_state := session_state;
             result_other := other |}).
Proof.
  intros Hopen.
  assert (Hv : (extract_followup_questions x).1 = take i x)
    by (by rewrite extract_visible, Hopen).
  split; [done|]. intros Hclose.
  assert (Hx : extract_followup_questions x = (take i x, [])).
  { apply injective_projections; [done|].
    apply findall_no_attempt. by apply no_attempt_without_close with i. }
  split; [done|].
  intros overrides context session_state more other Hsuggest.
  unfold run_without_streaming, first_item. cbn [resp_content resp_other].
  rewrite res_bind_Ok, Hsuggest, res_bind_Ok, Hx. done.
Qed.

Lemma C9_unclosed_marker_dropped_witness :
  extract_followup_questions (lit "See clause 4. <<What about") =
  (lit "See clause 4. ", []).
Proof.
  refine (proj1 (proj2 (C9_unclosed_marker_dropped
                          (lit "See clause 4. <<What about") 14 _) _)).
  - vm_compute. reflexivity.
  - vm_compute. reflexivity.
Defined.

(* ===================================================================== *)
(** * The ceiling of the query-distillation step *)
(* ===================================================================== *)

Lemma length_str_join_chars (s : str) :
  length (str_join [SPACE] (chars s)) = (2 * length s - 1)%nat.
Proof.
  induction s as [|c [|c' s] IH]; [done|done|].
  change (chars (c :: c' :: s)) with ([c] :: chars (c' :: s)).
  change (str_join [SPACE] ([c] :: chars (c' :: s)))
    with (c :: SPACE :: str_join [SPACE] (chars (c' :: s))).
  simpl length in *. rewrite IH. lia.
Qed.

Lemma length_user_query_request (q : str) :
  length (user_query_request_of q) = (27 + length q)%nat.
Proof. unfold user_query_request_of. by rewrite length_app. Qed.

(** For every user question, the token ceiling passed to message assembly
    for the query-distillation step is the token limit minus the length of
    the request string joined character by character with single spaces,
    that is minus (2 * n - 1) where n is the character length of
    ["Generate search query for: "] followed by the question. *)
Lemma query_ceiling_subtracts_joined_length (count : message → str → res nat)
    (gpt4v_model : str) (chatgpt_token_limit : Z)
    (query_prompt_template : str) (query_prompt_few_shots history : list message)
    (original_user_query : str) :
  let request := user_query_request_of original_user_query in
  let ceiling := chatgpt_token_limit - (2 * Z.of_nat (length request) - 1) in
  vision_query_messages count gpt4v_model chatgpt_token_limit
    query_prompt_template query_prompt_few_shots history original_user_query
  = get_messages_from_history count query_prompt_template gpt4v_model history
      (PStr request) ceiling query_prompt_few_shots
  ∧ query_max_tokens chatgpt_token_limit request = ceiling
  ∧ ceiling = chatgpt_token_limit - 53 - 2 * Z.of_nat (length original_user_query).
Proof.
  intros request ceiling.
  assert (Hq : query_max_tokens chatgpt_token_limit request = ceiling).
  { unfold query_max_tokens, ceiling. rewrite length_str_join_chars.
    unfold request. rewrite length_user_query_request. lia. }
  split; [|split; [done|]].
  - unfold vision_query_messages. fold request. by rewrite Hq.
  - unfold ceiling, request. rewrite length_user_query_request. lia.
Qed.

(** C7: the ceiling is meant to be the token limit minus the character
    length of the request string.  For the question "Q" and the limit 8100
    the request has 28 characters, and the ceiling the code passes to
    message assembly is 8045, not 8072: [" ".join] applied to the request
    string puts a space between every two of its characters, so 55 is
    subtracted. *)
Theorem C7_ceiling_is_not_limit_minus_length :
  let request := user_query_request_of (lit "Q") in
  length request = 28%nat ∧
  query_max_tokens 8100 request = 8045 ∧
  query_max_tokens 8100 request ≠ 8100 - Z.of_nat (length request) ∧
  ∀ count history,
    vision_query_messages count (lit "gpt-4") 8100 (lit "T") [] history
      (lit "Q")
    = get_messages_from_history count (lit "T") (lit "gpt-4") history
        (PStr request) 8045 [].
Proof.
  split; [reflexivity|]. split; [reflexivity|].
  split; [vm_compute; discriminate|]. reflexivity.
Qed.

(* ===================================================================== *)
(** * Extraction of the search query *)
(* ===================================================================== *)

Section SearchQueryFacts.

Variable json_loads : str → res pyval.

Lemma search_query_of_tools_passed tool rest user_query :
  passed_over json_loads tool →
  search_query_of_tools json_loads (tool :: rest) user_query
  = search_query_of_tools json_loads rest user_query.
Proof.
  intros Hp. simpl.
  destruct (decide (tc_type tool = lit "function")) as [Ht|Ht].
  2: { by rewrite bool_decide_eq_false_2. }
  rewrite (bool_decide_eq_true_2 _ Ht). simpl.
  destruct (decide (fn_name (tc_function tool) = lit "search_sources"))
    as [Hn|Hn].
  2: { by rewrite bool_decide_eq_false_2. }
  rewrite (bool_decide_eq_true_2 _ Hn).
  destruct Hp as [?|[?|(d & Hd & Hq)]]; [done|done|].
  rewrite Hd. simpl. unfold dict_get_or.
  by destruct Hq as [-> | ->].
Qed.

Lemma search_query_of_tools_carries tool rest user_query v :
  carries json_loads tool v →
  search_query_of_tools json_loads (tool :: rest) user_query = Ok v.
Proof.
  intros (Ht & Hn & d & Hd & Hq & Hv). simpl.
  rewrite (bool_decide_eq_true_2 _ Ht), (bool_decide_eq_true_2 _ Hn). simpl.
  rewrite Hd. simpl. unfold dict_get_or. rewrite Hq. simpl. by rewrite Hv.
Qed.

Lemma search_query_of_tools_all_passed tools user_query :
  Forall (passed_over json_loads) tools →
  search_query_of_tools json_loads tools user_query = Ok (PStr user_query).
Proof.
  induction 1 as [|tool tools Hp _ IH]; [done|].
  by rewrite search_query_of_tools_passed.
Qed.

Lemma search_query_of_tools_first before tool after user_query v :
  Forall (passed_over json_loads) before → carries json_loads tool v →
  search_query_of_tools json_loads (before ++ tool :: after) user_query = Ok v.
Proof.
  induction 1 as [|t before Hp _ IH]; intros Hc.
  - by apply search_query_of_tools_carries.
  - rewrite <- app_comm_cons, search_query_of_tools_passed by done. auto.
Qed.

End SearchQueryFacts.

(** C6 (as the specification words it): without a matching tool call, the
    plain text content is returned.  A response that carries a call of
    another function together with the text "foo" yields the raw user
    query: the text is read only when the response has no tool calls. *)
Lemma C6_text_ignored_beside_tool_calls :
  let result :=
    get_search_query json_loads_examples
      {| cc_choices :=
           [{| msg_content := Some (lit "foo");
               msg_tool_calls :=
                 Some [{| tc_type := lit "function";
                          tc_function := {| fn_name := lit "lookup";
                                            fn_arguments := lit "{}" |} |}] |}] |}
      (lit "raw question") in
  result = Ok (PStr (lit "raw question")) ∧ result ≠ Ok (PStr (lit "foo")).
Proof. split; [vm_compute; reflexivity|vm_compute; discriminate]. Qed.

(** C6 (amended): [get_search_query] reads the first choice's message.
    When the message has tool calls, they are examined in order: the first
    function call named [search_sources] whose decoded arguments hold a
    [search_query] other than the sentinel "0" gives the result, the calls
    before it being passed over (other type, other name, or a
    [search_query] that is absent or the sentinel); when every call is
    passed over, the raw user query is returned, whatever the text content.
    When the message has no tool calls, its text content is returned if it
    is non-empty and differs from "0" after trimming whitespace, and the raw
    user query is returned otherwise. *)
Theorem C6_search_query_policy (json_loads : str → res pyval)
    (completion : chat_completion) (msg : chat_message)
    (others : list chat_message) (user_query : str) :
  cc_choices completion = msg :: others →
  let result := get_search_query json_loads completion user_query in
  (∀ before tool after v,
      msg_tool_calls msg = Some (before ++ tool :: after) →
      Forall (passed_over json_loads) before →
      carries json_loads tool v →
      result = Ok v) ∧
  (∀ tools,
      msg_tool_calls msg = Some tools → tools ≠ [] →
      Forall (passed_over json_loads) tools →
      result = Ok (PStr user_query)) ∧
  (msg_tool_calls msg = None ∨ msg_tool_calls msg = Some [] →
     (∀ text, msg_content msg = Some text → text ≠ [] →
              str_strip text ≠ NO_RESPONSE → result = Ok (PStr text)) ∧
     (∀ text, msg_content msg = Some text →
              str_strip text = NO_RESPONSE → result = Ok (PStr user_query)) ∧
     (msg_content msg = None ∨ msg_content msg = Some [] →
              result = Ok (PStr user_query))).
Proof.
  intros Hchoices result. unfold result, get_search_query.
  rewrite Hchoices. cbn [first_item]. rewrite res_bind_Ok.
  split; [|split].
  - intros before tool after v -> Hbefore Hcarries.
    rewrite <- (search_query_of_tools_first json_loads before tool after
                  user_query v Hbefore Hcarries).
    by destruct before.
  - intros tools -> Hne Hall.
    rewrite <- (search_query_of_tools_all_passed json_loads tools user_query Hall).
    by destruct tools.
  - intros Hnone.
    assert (Hbranch : ∀ A (a : list tool_call → A) (b : A),
              match msg_tool_calls msg with
              | Some (tool :: rest) => a (tool :: rest)
              | _ => b
              end = b).
    { intros A a b. by destruct Hnone as [-> | ->]. }
    rewrite (Hbranch _ (λ l, search_query_of_tools json_loads l user_query)).
    split; [|split].
    + intros text -> Hne Hstrip. destruct text as [|c t]; [done|].
      by rewrite bool_decide_eq_false_2.
    + intros text -> Hstrip. destruct text as [|c t]; [done|].
      by rewrite bool_decide_eq_true_2.
    + by intros [-> | ->].
Qed.

Lemma C6_search_query_policy_witness :
  let sentinel_call :=
    {| tc_type := lit "function";
       tc_function := {| fn_name := lit "search_sources";
                         fn_arguments := lit "{}" |} |} in
  let rent_call :=
    {| tc_type := lit "function";
       tc_function := {| fn_name := lit "search_sources";
                         fn_arguments := rent_arguments |} |} in
  get_search_query json_loads_examples
    {| cc_choices :=
         [{| msg_content := Some (lit "foo");
             msg_tool_calls := Some [sentinel_call; rent_call] |}] |}
    (lit "raw question")
  = Ok (PStr (lit "rent")).
Proof.
  intros sentinel_call rent_call.
  set (msg := {| msg_content := Some (lit "foo");
                 msg_tool_calls := Some [sentinel_call; rent_call] |}).
  refine (proj1 (C6_search_query_policy json_loads_examples
                   {| cc_choices := [msg] |} msg []
                   (lit "raw question") eq_refl)
                [sentinel_call] rent_call [] (PStr (lit "rent")) eq_refl _ _).
  - constructor; [|constructor]. right. right. exists ∅.
    split; [reflexivity|]. left. reflexivity.
  - split; [reflexivity|]. split; [reflexivity|].
    exists {[ lit "search_query" := PStr (lit "rent") ]}.
    split; [reflexivity|]. split; reflexivity.
Defined.

(* ===================================================================== *)
(** * Retrieval in vectors mode *)
(* ===================================================================== *)

Lemma vectors_mode_no_text (overrides : gmap str pyval) :
  overrides !! lit "retrieval_mode" = Some (PStr (lit "vectors")) →
  has_text overrides = false ∧ has_vector overrides = true.
Proof. intros H. unfold has_text, has_vector, dict_get. rewrite H. done. Qed.

Lemma py_and_false_falsy (v : pyval) :
  py_truthy (py_and v (PBool false)) = false ∧
  (py_truthy v = true → py_and v (PBool false) = PBool false) ∧
  (py_truthy v = false → py_and v (PBool false) = v).
Proof. unfold py_and. destruct (py_truthy v) eqn:E; done. Qed.

Lemma flag_and_text_no_text (overrides : gmap str pyval) (flag : str) :
  has_text overrides = false → flag_and_text overrides flag = PBool false.
Proof.
  intros H. unfold flag_and_text. rewrite H.
  by rewrite (proj1 (py_and_false_falsy _)).
Qed.

(** What a [res] computation returns, when it returns. *)
Lemma res_bind_inv {A B} (m : res A) (f : A → res B) (b : B) :
  m ≫= f = Ok b → ∃ a, m = Ok a ∧ f a = Ok b.
Proof. destruct m as [a|e]; [eauto|done]. Qed.

(** Walks through the steps of a computation that returned: each awaited
    or fallible step before the result returned too. *)
Ltac returned H :=
  repeat (apply res_bind_inv in H as (? & _ & H)); injection H as <-.

(** In retrieval mode "vectors" the vision approach calls the search
    collaborator with [False] for both flags and [None] as query text.
    Retrieve-then-read passes [False] for the captions and [None] as query
    text too, but for the ranker the value of [semantic_ranker and
    has_text]: [False] when the override is truthy, the override itself
    (so [None] when it is absent) otherwise. *)
Lemma vectors_mode_search_arguments
    (dict_iter : gmap str pyval → list str)
    (count : message → str → res nat) (json_loads : str → res pyval)
    (gpt4v_model : str) (chatgpt_token_limit : Z)
    (query_prompt_template : str) (query_prompt_few_shots : list message)
    (build_filter : gmap str pyval → pyval → res pyval)
    (chat_completions_create : list message → res chat_completion)
    (compute_text_embedding compute_image_embedding : pyval → res pyval)
    (overrides : gmap str pyval) (history : list message)
    (auth_claims : pyval) :
  overrides !! lit "retrieval_mode" = Some (PStr (lit "vectors")) →
  (∀ call,
      vision_search_call dict_iter count json_loads gpt4v_model
        chatgpt_token_limit query_prompt_template query_prompt_few_shots
        build_filter chat_completions_create compute_text_embedding
        compute_image_embedding history overrides auth_claims = Ok call →
      sc_use_semantic_ranker call = PBool false ∧
      sc_use_semantic_captions call = PBool false ∧
      sc_query_text call = PNone) ∧
  (∀ call,
      retrievethenread_search_call build_filter compute_text_embedding
        history overrides auth_claims = Ok call →
      sc_use_semantic_ranker call
      = (if py_truthy (dict_get overrides (lit "semantic_ranker"))
         then PBool false else dict_get overrides (lit "semantic_ranker")) ∧
      sc_use_semantic_captions call = PBool false ∧
      sc_query_text call = PNone).
Proof.
  intros [Htext Hvec]%vectors_mode_no_text. split.
  - intros call. unfold vision_search_call.
    rewrite !flag_and_text_no_text, Htext by done.
    intros H. returned H. done.
  - intros call. unfold retrievethenread_search_call.
    rewrite !flag_and_text_no_text, Htext by done.
    intros H. returned H.
    cbn [sc_use_semantic_ranker sc_use_semantic_captions sc_query_text].
    destruct (py_and_false_falsy (dict_get overrides (lit "semantic_ranker")))
      as (_ & H2 & H3).
    destruct (py_truthy (dict_get overrides (lit "semantic_ranker")));
      [rewrite H2|rewrite H3]; done.
Qed.

(** C10: with the overrides [{"retrieval_mode": "vectors"}] and nothing
    else, retrieve-then-read calls the search collaborator with [None] as
    [use_semantic_ranker], where [False] is expected: its line
    [overrides.get("semantic_ranker") and has_text] hands the falsy
    override on.  The captions flag of the same call is [False] and the
    query text [None]; the vision approach, on the same overrides, passes
    [False] for both flags. *)
Theorem C10_ranker_flag_is_not_false :
  let overrides : gmap str pyval :=
    {[ lit "retrieval_mode" := PStr (lit "vectors") ]} in
  (∃ call,
     retrievethenread_search_call no_filter unit_embedding notice_history
       overrides (PDict ∅) = Ok call ∧
     sc_use_semantic_ranker call = PNone ∧
     sc_use_semantic_ranker call ≠ PBool false ∧
     sc_use_semantic_captions call = PBool false ∧
     sc_query_text call = PNone) ∧
  (∃ call,
     vision_search_call keys_in_map_order (flat_count 4) json_loads_examples
       (lit "gpt-4") 8100 (lit "T") [] no_filter
       (answer_with (lit "notice period")) unit_embedding unit_embedding
       notice_history overrides (PDict ∅) = Ok call ∧
     sc_use_semantic_ranker call = PBool false ∧
     sc_use_semantic_captions call = PBool false ∧
     sc_query_text call = PNone).
Proof.
  intros overrides. split.
  - eexists. split; [vm_compute; reflexivity|]. by repeat split.
  - eexists. split; [vm_compute; reflexivity|]. by repeat split.
Qed.

(* ===================================================================== *)
(** * The streaming state machine *)
(* ===================================================================== *)

Lemma visible_content_app out1 out2 :
  visible_content (out1 ++ out2) = visible_content out1 ++ visible_content out2.
Proof. unfold visible_content. by rewrite fmap_app, join_app. Qed.

Lemma full_content_app ev1 ev2 :
  full_content (ev1 ++ ev2) = full_content ev1 ++ full_content ev2.
Proof. unfold full_content. by rewrite fmap_app, join_app. Qed.

Lemma full_content_cons e events :
  full_content (e :: events) = event_text e ++ full_content events.
Proof. done. Qed.

Lemma event_text_set_delta_content e text :
  choices e ≠ [] → event_text (set_delta_content e text) = text.
Proof. unfold event_text, set_delta_content. by destruct (choices e). Qed.

Lemma event_text_no_choices e : choices e = [] → event_text e = [].
Proof. unfold event_text. by intros ->. Qed.

Section StreamFacts.

Variable overrides : gmap str pyval.
Hypothesis Hsuggest : suggest_followup_questions overrides = true.

(** NORMAL state, no marker in the chunk: the chunk goes through. *)
Lemma stream_step_normal st e :
  followup_questions_started st = false →
  str_index OPEN (event_text e) = None →
  ∃ out, stream_step overrides st e = (st, out) ∧
         visible_content out = event_text e.
Proof.
  intros Hst He. unfold stream_step, event_text in *.
  destruct (choices e) as [|c cs] eqn:Hc; [by exists []|].
  rewrite Hsuggest, He, Hst. exists [YEvent e]. split; [done|].
  unfold visible_content, event_text. simpl. rewrite Hc. by rewrite app_nil_r.
Qed.

(** A chunk with the marker, in either state: the text before the marker
    is yielded, the rest is buffered, and the state is ACCUMULATING. *)
Lemma stream_step_marker st e i :
  str_index OPEN (event_text e) = Some i →
  ∃ out,
    stream_step overrides st e
    = ({| followup_questions_started := true;
          followup_content := followup_content st ++ drop i (event_text e) |},
       out) ∧
    visible_content out = take i (event_text e).
Proof.
  intros He. unfold stream_step. pose proof He as He'.
  unfold event_text in He |- *.
  destruct (choices e) as [|c cs] eqn:Hc; [done|].
  rewrite Hsuggest, He. eexists. split; [done|].
  destruct (take i (default [] (delta_content c))) as [|a t] eqn:Ht; [done|].
  unfold visible_content. simpl. rewrite app_nil_r.
  apply event_text_set_delta_content. by rewrite Hc.
Qed.

(** ACCUMULATING state, no marker in the chunk: the text is buffered and
    nothing is yielded. *)
Lemma stream_step_accumulating st e :
  followup_questions_started st = true →
  str_index OPEN (event_text e) = None →
  stream_step overrides st e
  = ({| followup_questions_started := true;
        followup_content := followup_content st ++ event_text e |}, []).
Proof.
  intros Hst He. unfold stream_step, event_text in *.
  destruct (choices e) as [|c cs] eqn:Hc.
  - rewrite app_nil_r. destruct st; simpl in *. by subst.
  - by rewrite Hsuggest, He, Hst.
Qed.

Lemma stream_loop_app st ev1 ev2 :
  stream_loop overrides st (ev1 ++ ev2)
  = let '(st1, out1) := stream_loop overrides st ev1 in
    let '(st2, out2) := stream_loop overrides st1 ev2 in
    (st2, out1 ++ out2).
Proof.
  revert st. induction ev1 as [|e ev1 IH]; intros st; simpl.
  - by destruct (stream_loop overrides st ev2).
  - destruct (stream_step overrides st e) as [st1 out1].
    rewrite IH.
    destruct (stream_loop overrides st1 ev1) as [st2 out2].
    destruct (stream_loop overrides st2 ev2) as [st3 out3].
    by rewrite app_assoc.
Qed.

(** Chunks without the marker leave the NORMAL state as it is and are all
    visible. *)
Lemma stream_loop_normal st events :
  followup_questions_started st = false →
  Forall (λ e, str_index OPEN (event_text e) = None) events →
  ∃ out, stream_loop overrides st events = (st, out) ∧
         visible_content out = full_content events.
Proof.
  intros Hst. induction 1 as [|e events He _ (out & IH & Hout)]; simpl.
  - by exists [].
  - destruct (stream_step_normal st e Hst He) as (out1 & -> & Hout1).
    rewrite IH. exists (out1 ++ out). split; [done|].
    by rewrite visible_content_app, Hout1, Hout, full_content_cons.
Qed.

(** Once ACCUMULATING, chunks that hold no marker or start with it yield
    no visible content. *)
Lemma stream_loop_accumulating st events :
  followup_questions_started st = true →
  Forall (λ e, str_index OPEN (event_text e) = None ∨
               str_index OPEN (event_text e) = Some 0%nat) events →
  ∃ st' out, stream_loop overrides st events = (st', out) ∧
             visible_content out = [].
Proof.
  intros Hst Hall. revert st Hst.
  induction Hall as [|e events He _ IH]; intros st Hst; simpl.
  - by exists st, [].
  - destruct He as [He|He].
    + rewrite (stream_step_accumulating st e Hst He).
      edestruct IH as (st' & out & -> & Hout); [|by exists st', out]. done.
    + destruct (stream_step_marker st e 0 He) as (out1 & -> & Hout1).
      edestruct IH as (st' & out & -> & Hout); [done|].
      exists st', (out1 ++ out). split; [done|].
      by rewrite visible_content_app, Hout1, Hout, take_0.
Qed.

End StreamFacts.

(** ** The first marker of a concatenation *)

Lemma str_index_Some_split sub s i :
  str_index sub s = Some i → ∃ r, s = take i s ++ sub ++ r.
Proof.
  intros ([r Hr]%startswith_app & _ & _)%str_index_Some.
  exists r. by rewrite <- Hr, take_drop.
Qed.

(** A text without [sub] has no part with [sub]. *)
Lemma str_index_None_part sub a b c :
  str_index sub (a ++ b ++ c) = None → str_index sub b = None.
Proof.
  intros Hnone. destruct (str_index sub b) as [j|] eqn:Hb; [|done].
  apply str_index_Some_split in Hb as [r Hr].
  pose proof (str_index_occurs sub (a ++ take j b) (r ++ c)) as [k Hk].
  assert (Heq : a ++ b ++ c = (a ++ take j b) ++ sub ++ r ++ c).
  { rewrite Hr at 1. by rewrite <- !app_assoc. }
  rewrite Heq in Hnone. congruence.
Qed.

Lemma str_index_None_full events e :
  str_index OPEN (full_content events) = None → e ∈ events →
  str_index OPEN (event_text e) = None.
Proof.
  intros Hnone (ev1 & ev2 & ->)%list_elem_of_split.
  rewrite full_content_app, full_content_cons in Hnone.
  by apply str_index_None_part in Hnone.
Qed.

Lemma startswith_take_ge sub s n :
  (length sub ≤ n)%nat → startswith sub s = true →
  startswith sub (take n s) = true.
Proof.
  intros Hn [r ->]%startswith_app. apply startswith_app.
  exists (take (n - length sub) r). rewrite take_app.
  by rewrite take_ge by lia.
Qed.

(** When the first ["<<"] of a chunk is not preceded by one that ends in
    this chunk, it is the first ["<<"] of the whole response. *)
Lemma first_open_of_full before text after i :
  str_index OPEN text = Some i →
  str_index OPEN (before ++ take (S i) text) = None →
  str_index OPEN (before ++ text ++ after) = Some (length before + i)%nat.
Proof.
  intros Htext Hbefore.
  pose proof Htext as (Hat & Hi & _)%str_index_Some.
  assert (Hlen : (i + 2 ≤ length text)%nat).
  { apply startswith_app in Hat as [r Hr].
    apply (f_equal length) in Hr. rewrite length_drop, length_app in Hr.
    simpl in Hr. lia. }
  apply str_index_Some. split; [|split].
  - rewrite drop_app_add, drop_app_le by lia.
    apply startswith_app in Hat as [r ->]. apply startswith_app.
    exists (r ++ after). by rewrite <- app_assoc.
  - rewrite !length_app. lia.
  - intros k Hk.
    destruct (startswith OPEN (drop k (before ++ text ++ after))) eqn:E; [|done].
    rewrite str_index_None in Hbefore. specialize (Hbefore k).
    assert (Hcut : before ++ take (S i) text
                   = take (length before + S i) (before ++ text ++ after)).
    { by rewrite take_app_add, take_app_le by lia. }
    rewrite Hcut in Hbefore.
    replace (length before + S i)%nat with (k + (length before + S i - k))%nat
      in Hbefore by lia.
    rewrite <- take_drop_commute in Hbefore.
    rewrite startswith_take_ge in Hbefore; [done| |done]. simpl. lia.
Qed.

Lemma visible_content_run overrides extra_info session_state events :
  visible_content (run_with_streaming overrides extra_info session_state events)
  = visible_content (stream_loop overrides stream_start events).2.
Proof.
  unfold run_with_streaming.
  destruct (stream_loop overrides stream_start events) as [st out]. simpl.
  change (YContext extra_info session_state :: ?l)
    with ([YContext extra_info session_state] ++ l).
  rewrite !visible_content_app.
  by destruct (followup_content st); rewrite app_nil_r.
Qed.

(** C2 (as the specification words it): for every splitting of the response
    into deltas the streamed content equals the non-streaming content.  The
    response "a<<Q?>>" split between the two characters of its marker is
    streamed in full, markers included, while the non-streaming visible
    content is "a". *)
Lemma C2_marker_split_across_deltas :
  let overrides : gmap str pyval :=
    {[ lit "suggest_followup_questions" := PBool true ]} in
  let events := [delta_event (lit "a<"); delta_event (lit "<Q?>>")] in
  full_content events = lit "a<<Q?>>" ∧
  visible_content (run_with_streaming overrides PNone PNone events)
  = lit "a<<Q?>>" ∧
  (extract_followup_questions (full_content events)).1 = lit "a" ∧
  visible_content (run_with_streaming overrides PNone PNone events)
  ≠ (extract_followup_questions (full_content events)).1.
Proof.
  split; [reflexivity|]. split; [vm_compute; reflexivity|].
  split; [vm_compute; reflexivity|]. vm_compute. discriminate.
Qed.

(** C2 (amended): when follow-up questions are requested, for every
    response and every splitting of it into deltas in which the first
    ["<<"] of the response lies inside one delta and every later delta that
    holds ["<<"] starts with it, the visible content chunks the streaming
    post-processor yields, concatenated in order, equal the visible content
    the non-streaming post-processor produces for the full response, which
    it returns whenever the context it is given is a dict. *)
Theorem C2_streamed_content_is_visible_content (overrides : gmap str pyval)
    (extra_info session_state : pyval) (events : list event) :
  suggest_followup_questions overrides = true →
  marker_aligned events →
  let streamed :=
    visible_content
      (run_with_streaming overrides extra_info session_state events) in
  streamed = (extract_followup_questions (full_content events)).1 ∧
  ∀ (context : gmap str pyval) more other,
    result_content <$>
      run_without_streaming overrides (PDict context) session_state
        {| resp_content := Some (full_content events) :: more;
           resp_other := other |}
    = Ok (Some streamed).
Proof.
  intros Hsuggest Haligned streamed.
  assert (Hstreamed :
            streamed = (extract_followup_questions (full_content events)).1).
  { unfold streamed. rewrite visible_content_run, extract_visible.
    destruct Haligned as [events Hnone|before e after i He Hbefore Hafter].
    - rewrite Hnone.
      destruct (stream_loop_normal overrides Hsuggest stream_start events)
        as (out & -> & Hout); [done| |done].
      apply Forall_forall. intros e He.
      by apply str_index_None_full with events.
    - rewrite full_content_app, full_content_cons.
      rewrite (first_open_of_full _ _ _ i He Hbefore).
      rewrite take_app_add, take_app_le
        by (apply str_index_Some in He as (_ & ? & _); lia).
      rewrite stream_loop_app.
      destruct (stream_loop_normal overrides Hsuggest stream_start before)
        as (out0 & -> & Hout0); [done| |].
      { apply Forall_forall. intros e' He'.
        apply str_index_None_part with (a := []) (c := take (S i) (event_text e))
          in Hbefore.
        by apply str_index_None_full with before. }
      simpl.
      destruct (stream_step_marker overrides Hsuggest stream_start e i He)
        as (out1 & -> & Hout1).
      edestruct (stream_loop_accumulating overrides Hsuggest) as
        (st' & out2 & -> & Hout2); [|exact Hafter|]; [done|].
      simpl. rewrite !visible_content_app, Hout0, Hout1, Hout2.
      by rewrite app_nil_r. }
  split; [done|]. intros context more other.
  unfold run_without_streaming, first_item. cbn [resp_content resp_other].
  rewrite res_bind_Ok, Hsuggest, res_bind_Ok.
  destruct (extract_followup_questions (full_content events)) as [v qs] eqn:E.
  simpl in Hstreamed. simpl. by rewrite Hstreamed.
Qed.

Lemma C2_streamed_content_is_visible_content_witness :
  let overrides : gmap str pyval :=
    {[ lit "suggest_followup_questions" := PBool true ]} in
  let events :=
    [delta_event (lit "Here"); delta_event (lit " is <<");
     delta_event (lit "Q1?>>")] in
  visible_content (run_with_streaming overrides PNone PNone events)
  = (extract_followup_questions (lit "Here is <<Q1?>>")).1.
Proof.
  intros overrides events.
  apply (C2_streamed_content_is_visible_content overrides PNone PNone events).
  - vm_compute. reflexivity.
  - apply (aligned_marker [delta_event (lit "Here")] (delta_event (lit " is <<"))
             [delta_event (lit "Q1?>>")] 4).
    + vm_compute. reflexivity.
    + vm_compute. reflexivity.
    + constructor; [|constructor]. left. vm_compute. reflexivity.
Defined.

(** The scenario of the specification: three deltas, follow-ups requested. *)
Example streaming_scenario :
  run_with_streaming {[ lit "suggest_followup_questions" := PBool true ]}
    PNone PNone
    [delta_event (lit "Here"); delta_event (lit " is <<");
     delta_event (lit "Q1?>>")]
  = [YContext PNone PNone; YEvent (delta_event (lit "Here"));
     YEvent (delta_event (lit " is ")); YFollowup [lit "Q1?"]].
Proof. vm_compute. reflexivity. Qed.

(** C1 (the code at a failing input): follow-up questions are requested and
    the first delta holds the open marker, so the loop is in the
    ACCUMULATING state when the second delta " <<Q2?>>" arrives.  The loop
    yields the space in front of that delta's marker as visible content,
    and the buffer holds the delta without it. *)
Lemma C1_prefix_yielded_while_accumulating :
  let overrides : gmap str pyval :=
    {[ lit "suggest_followup_questions" := PBool true ]} in
  let first := delta_event (lit "A. <<Q1?>>") in
  let second := delta_event (lit " <<Q2?>>") in
  let '(st1, out1) := stream_step overrides stream_start first in
  let '(st2, out2) := stream_step overrides st1 second in
  followup_questions_started st1 = true ∧
  out2 = [YEvent (delta_event (lit " "))] ∧
  followup_content st2 = lit "<<Q1?>><<Q2?>>" ∧
  followup_content st2 ≠ followup_content st1 ++ event_text second ∧
  run_with_streaming overrides PNone PNone [first; second]
  = [YContext PNone PNone; YEvent (delta_event (lit "A. "));
     YEvent (delta_event (lit " ")); YFollowup [lit "Q1?"; lit "Q2?"]].
Proof. vm_compute. repeat split; discriminate. Qed.

(* ===================================================================== *)
(** * Further properties of follow-up extraction *)
(* ===================================================================== *)

Lemma findall_followup_match s body rest :
  match_followup s = Some (body, rest) →
  findall_followup s = body :: findall_followup rest.
Proof.
  intros Hm. destruct s as [|c t]; [done|].
  rewrite findall_followup_equation_2.
  generalize (inspect (match_followup (c :: t))).
  intros [[[b r]|] H]; simpl.
  - rewrite Hm in H. by injection H as -> ->.
  - congruence.
Qed.

Lemma findall_followup_no_match c t :
  match_followup (c :: t) = None →
  findall_followup (c :: t) = findall_followup t.
Proof.
  intros Hm. rewrite findall_followup_equation_2.
  generalize (inspect (match_followup (c :: t))).
  intros [[[b r]|] H]; simpl; [congruence|done].
Qed.

(** The scan passes over a prefix in which no attempt succeeds. *)
Lemma findall_followup_skip p s :
  (∀ k, (k < length p)%nat → match_followup (drop k (p ++ s)) = None) →
  findall_followup (p ++ s) = findall_followup s.
Proof.
  induction p as [|c p IH]; intros Hno; [done|].
  rewrite <- app_comm_cons, findall_followup_no_match.
  - apply IH. intros k Hk. apply (Hno (S k)). simpl. lia.
  - apply (Hno 0%nat). simpl. lia.
Qed.

Lemma take_while_not_gt q r :
  GT ∉ q → take_while not_gt (q ++ GT :: r) = q ∧
            drop_while not_gt (q ++ GT :: r) = GT :: r.
Proof.
  induction q as [|c q IH]; intros Hq; [done|]. simpl.
  apply not_elem_of_cons in Hq as [Hc Hq]. unfold not_gt at 1 3.
  destruct (decide (c = GT)) as [->|_]; [done|].
  destruct (IH Hq) as [-> ->]. done.
Qed.

Lemma take_while_not_gt_elem s : GT ∉ take_while not_gt s.
Proof.
  induction s as [|c s IH]; simpl; [apply not_elem_of_nil|].
  unfold not_gt at 1. destruct (decide (c = GT)); [apply not_elem_of_nil|].
  apply not_elem_of_cons. done.
Qed.

(** An attempt at a rendered question succeeds and captures it. *)
Lemma match_followup_rendered q r :
  question_text q → match_followup (OPEN ++ q ++ CLOSE ++ r) = Some (q, r).
Proof.
  intros [Hne Hq]. unfold match_followup.
  change (strip_prefix OPEN (OPEN ++ ?x)) with (Some x).
  cbn [mbind option_bind].
  change (q ++ CLOSE ++ r) with (q ++ GT :: GT :: r).
  destruct (take_while_not_gt q (GT :: r) Hq) as [-> ->].
  by destruct q.
Qed.

(** What an attempt captures is the text of a question. *)
Lemma match_followup_question s body rest :
  match_followup s = Some (body, rest) → question_text body.
Proof.
  intros H. pose proof H as [_ Hne]%match_followup_shape. split; [done|].
  unfold match_followup in H.
  destruct (strip_prefix OPEN s) as [r|]; [|done].
  cbn [mbind option_bind] in H.
  destruct (take_while not_gt r) as [|b0 b] eqn:Hb; [done|].
  destruct (strip_prefix CLOSE (drop_while not_gt r)); [|done].
  injection H as <- _. rewrite <- Hb. apply take_while_not_gt_elem.
Qed.

(** No ["<<"] begins inside a marker-free prefix. *)
Lemma marker_free_no_start p s k :
  marker_free p → (k < length p)%nat →
  startswith OPEN (drop k (p ++ LT :: s)) = false.
Proof.
  intros Hp Hk. unfold marker_free in Hp.
  destruct (startswith OPEN (drop k (p ++ LT :: s))) eqn:E; [|done].
  rewrite str_index_None in Hp. specialize (Hp k).
  assert (Hcut : p ++ [LT] = take (length p + 1) (p ++ LT :: s)).
  { by rewrite take_app_add. }
  rewrite Hcut in Hp.
  replace (length p + 1)%nat with (k + (length p + 1 - k))%nat in Hp by lia.
  rewrite <- take_drop_commute in Hp.
  rewrite startswith_take_ge in Hp; [done| |done]. simpl. lia.
Qed.

Lemma marker_free_no_open p : marker_free p → str_index OPEN p = None.
Proof.
  intros Hp. apply (str_index_None_part OPEN [] p [LT]). exact Hp.
Qed.

Lemma findall_followup_rendered p items :
  marker_free p →
  Forall (λ item, question_text item.1 ∧ marker_free item.2) items →
  findall_followup (p ++ render_followups items) = items.*1.
Proof.
  intros Hp Hitems. revert p Hp.
  induction Hitems as [|[q sep] items [Hq Hsep] _ IH]; intros p Hp.
  - rewrite app_nil_r. by apply findall_no_open, marker_free_no_open.
  - cbn [render_followups fst snd] in *. rewrite fmap_cons. cbn [fst].
    rewrite findall_followup_skip.
    + rewrite (findall_followup_match _ q (sep ++ render_followups items))
        by (by apply match_followup_rendered).
      f_equal. by apply IH.
    + intros k Hk.
      destruct (match_followup (drop k (p ++ OPEN ++ q ++ CLOSE ++ sep
                                        ++ render_followups items)))
        as [m|] eqn:E; [|done].
      apply match_followup_startswith in E.
      change (OPEN ++ ?x) with (LT :: LT :: x) in E.
      by rewrite marker_free_no_start in E.
Qed.

(** X1: extraction undoes rendering.  For an answer and separators that
    hold no ["<<"] and do not end in ['<'], and questions that are not
    empty and hold no ['>'], extracting from the answer followed by the
    questions, each between ["<<"] and [">>"] and followed by its
    separator, gives back the answer and the questions in order. *)
Theorem X1_extract_rendered (answer : str) (items : list (str * str)) :
  marker_free answer →
  Forall (λ item, question_text item.1 ∧ marker_free item.2) items →
  extract_followup_questions (answer ++ render_followups items)
  = (answer, items.*1).
Proof.
  intros Hanswer Hitems. apply injective_projections.
  - rewrite extract_visible. cbn [fst].
    destruct items as [|[q sep] items].
    + rewrite app_nil_r. by rewrite marker_free_no_open.
    + cbn [render_followups].
      pose proof (first_open_of_full answer
                    (OPEN ++ q ++ CLOSE ++ sep ++ render_followups items) [] 0
                    eq_refl Hanswer) as Hfirst.
      rewrite app_nil_r, Nat.add_0_r in Hfirst. rewrite Hfirst.
      by rewrite take_app_length.
  - by apply findall_followup_rendered.
Qed.

(** Membership of ['>'] in a literal is settled by computation. *)
Ltac no_gt := apply (bool_decide_unpack _); vm_compute; exact I.

Lemma X1_extract_rendered_witness :
  extract_followup_questions (lit "The answer. <<Q1?>> <<Q2?>>")
  = (lit "The answer. ", [lit "Q1?"; lit "Q2?"]).
Proof.
  apply (X1_extract_rendered (lit "The answer. ")
           [(lit "Q1?", lit " "); (lit "Q2?", [])]).
  - vm_compute. reflexivity.
  - repeat constructor; try discriminate; try no_gt.
Defined.

(** Every question found lies in the content between the markers. *)
Lemma findall_followup_occurs s :
  Forall (λ q, question_text q ∧ ∃ a b, s = a ++ OPEN ++ q ++ CLOSE ++ b)
         (findall_followup s).
Proof.
  funelim (findall_followup s).
  - constructor.
  - constructor.
    + split; [by eapply match_followup_question|].
      pose proof (match_followup_shape _ _ _ Hm) as [Hs _].
      exists [], rest. by rewrite Hs.
    + pose proof (match_followup_shape _ _ _ Hm) as [Hs _].
      eapply Forall_impl; [eassumption|]. intros q [Hq (a & b & ->)].
      split; [done|]. rewrite Hs.
      exists (OPEN ++ body ++ CLOSE ++ a), b. by rewrite <- !app_assoc.
  - eapply Forall_impl; [eassumption|]. intros q [Hq (a & b & ->)].
    split; [done|]. by exists (c :: a), b.
Qed.

(** X2: every follow-up question that [extract_followup_questions] returns
    is a non-empty text without ['>'] that stands in the content between
    ["<<"] and [">>"]. *)
Theorem X2_extracted_questions_occur (content : str) :
  Forall (λ q, q ≠ [] ∧ (GT ∉ q) ∧
               ∃ before after, content = before ++ OPEN ++ q ++ CLOSE ++ after)
         (extract_followup_questions content).2.
Proof.
  eapply Forall_impl; [apply findall_followup_occurs|].
  intros q [[Hne Hgt] Hocc]. done.
Qed.

(** X3: the visible content is the part of the content in front of the
    first ["<<"]: the content is the visible content followed by nothing or
    by a text that starts with ["<<"], and the visible content holds no
    ["<<"].  A content without ["<<"] is returned whole, with no
    questions. *)
Theorem X3_visible_is_prefix (content : str) :
  let visible := (extract_followup_questions content).1 in
  (∃ dropped, content = visible ++ dropped ∧
              (dropped = [] ∨ startswith OPEN dropped = true)) ∧
  str_index OPEN visible = None ∧
  (str_index OPEN content = None →
   extract_followup_questions content = (content, [])).
Proof.
  intros visible. split; [|split].
  - unfold visible. rewrite extract_visible.
    destruct (str_index OPEN content) as [i|] eqn:E.
    + exists (drop i content). split; [by rewrite take_drop|]. right.
      by apply str_index_Some in E as (? & _ & _).
    + exists []. split; [by rewrite app_nil_r|]. by left.
  - apply extract_visible_no_open.
  - intros Hnone. apply injective_projections.
    + rewrite extract_visible. by rewrite Hnone.
    + by apply findall_no_open.
Qed.

Lemma X3_visible_is_prefix_witness :
  extract_followup_questions (lit "No follow-ups here > at all")
  = (lit "No follow-ups here > at all", []).
Proof.
  apply (X3_visible_is_prefix (lit "No follow-ups here > at all")).
  vm_compute. reflexivity.
Defined.

(* ===================================================================== *)
(** * Further properties of the non-streaming post-processor *)
(* ===================================================================== *)

(** X4: [run_without_streaming] fails in three cases only.  A response
    without choices raises [IndexError].  With follow-up questions
    requested, a first choice whose content is [None] raises
    [AttributeError], and a context that is not a dict raises [TypeError]
    when the entry for the follow-up questions is written into it.  In
    every other case it returns, with the context and the session state it
    was given. *)
Theorem X4_run_without_streaming_errors (overrides : gmap str pyval)
    (extra_info session_state : pyval) (chat_resp : chat_response) :
  let result :=
    run_without_streaming overrides extra_info session_state chat_resp in
  (resp_content chat_resp = [] → result = Raise IndexError) ∧
  (∀ more, resp_content chat_resp = None :: more →
           suggest_followup_questions overrides = true →
           result = Raise AttributeError) ∧
  (∀ text more, resp_content chat_resp = Some text :: more →
                suggest_followup_questions overrides = true →
                (∀ context, extra_info ≠ PDict context) →
                result = Raise TypeError) ∧
  (∀ c more, resp_content chat_resp = c :: more →
             (suggest_followup_questions overrides = true →
              c ≠ None ∧ ∃ context, extra_info = PDict context) →
             ∃ r, result = Ok r ∧ result_context r = extra_info ∧
                  result_session_state r = session_state).
Proof.
  intros result. unfold result, run_without_streaming.
  split; [|split; [|split]].
  - by intros ->.
  - intros more -> Hs. cbn [first_item]. by rewrite res_bind_Ok, Hs.
  - intros text more -> Hs Hcontext. cbn [first_item].
    rewrite res_bind_Ok, Hs, res_bind_Ok.
    destruct (extract_followup_questions text).
    destruct extra_info as [| | | | | |context]; try done.
    by destruct (Hcontext context).
  - intros c more -> Hc. cbn [first_item]. rewrite res_bind_Ok.
    destruct (suggest_followup_questions overrides).
    + destruct Hc as [Hc [context ->]]; [done|].
      destruct c as [text|]; [|done]. rewrite res_bind_Ok.
      destruct (extract_followup_questions text). eauto.
    + eauto.
Qed.

Lemma X4_run_without_streaming_errors_witness :
  run_without_streaming {[ lit "suggest_followup_questions" := PBool true ]}
    (PDict ∅) PNone {| resp_content := [None]; resp_other := PNone |}
  = Raise AttributeError ∧
  run_without_streaming {[ lit "suggest_followup_questions" := PBool true ]}
    (PList []) PNone
    {| resp_content := [Some (lit "Yes. <<Why?>>")]; resp_other := PNone |}
  = Raise TypeError.
Proof.
  split.
  - refine (proj1 (proj2 (X4_run_without_streaming_errors
                            {[ lit "suggest_followup_questions" := PBool true ]}
                            (PDict ∅) PNone
                            {| resp_content := [None]; resp_other := PNone |}))
              [] eq_refl _).
    vm_compute. reflexivity.
  - refine (proj1 (proj2 (proj2 (X4_run_without_streaming_errors
                            {[ lit "suggest_followup_questions" := PBool true ]}
                            (PList []) PNone
                            {| resp_content := [Some (lit "Yes. <<Why?>>")];
                               resp_other := PNone |})))
              (lit "Yes. <<Why?>>") [] eq_refl _ _).
    + vm_compute. reflexivity.
    + discriminate.
Defined.

(** X5: what the caller reads from a returned result.  With follow-up
    questions requested the content holds no ["<<"] and the questions are
    non-empty texts without ['>']; without the request the content of the
    first choice is returned as it is, markers included, and no list of
    questions is attached. *)
Theorem X5_run_without_streaming_content (overrides : gmap str pyval)
    (extra_info session_state : pyval) (chat_resp : chat_response)
    (r : chat_result) :
  run_without_streaming overrides extra_info session_state chat_resp = Ok r →
  (suggest_followup_questions overrides = true →
     ∃ visible questions,
       result_content r = Some visible ∧
       str_contains OPEN visible = false ∧
       result_followup_questions r = Some questions ∧
       Forall question_text questions) ∧
  (suggest_followup_questions overrides = false →
     head (resp_content chat_resp) = Some (result_content r) ∧
     result_followup_questions r = None).
Proof.
  unfold run_without_streaming.
  destruct (resp_content chat_resp) as [|c more]; [done|].
  cbn [first_item]. rewrite res_bind_Ok.
  destruct (suggest_followup_questions overrides).
  - destruct c as [text|]; [|done]. rewrite res_bind_Ok.
    destruct (extract_followup_questions text) as [v qs] eqn:E.
    destruct extra_info; try done.
    intros [= <-]. split; [|done]. intros _. exists v, qs. simpl.
    split; [done|]. split; [|split; [done|]].
    + unfold str_contains.
      pose proof (extract_visible_no_open text) as Hv. rewrite E in Hv.
      simpl in Hv. by rewrite Hv.
    + pose proof (findall_followup_occurs text) as Hq.
      replace qs with (extract_followup_questions text).2 by (by rewrite E).
      eapply Forall_impl; [exact Hq|]. by intros q [Hq' _].
  - intros [= <-]. split; [done|]. done.
Qed.

Lemma X5_run_without_streaming_content_witness :
  let overrides : gmap str pyval := ∅ in
  let chat_resp :=
    {| resp_content := [Some (lit "Yes. <<Why?>>")]; resp_other := PNone |} in
  ∃ r,
    run_without_streaming overrides PNone PNone chat_resp = Ok r ∧
    result_content r = Some (lit "Yes. <<Why?>>") ∧
    result_followup_questions r = None.
Proof.
  intros overrides chat_resp.
  destruct (run_without_streaming overrides PNone PNone chat_resp)
    as [r|e] eqn:E; [|vm_compute in E; discriminate].
  exists r. split; [reflexivity|].
  destruct (X5_run_without_streaming_content overrides PNone PNone chat_resp
              r E) as [_ Hplain].
  destruct (Hplain ltac:(vm_compute; reflexivity)) as [Hc Hq].
  split; [|exact Hq]. simpl in Hc. by injection Hc as <-.
Defined.

(* ===================================================================== *)
(** * Further properties of the streaming post-processor *)
(* ===================================================================== *)

(** One iteration, follow-up questions being requested, by the marker of
    the chunk and the state. *)
Lemma stream_step_requested overrides st e :
  suggest_followup_questions overrides = true →
  stream_step overrides st e =
  match str_index OPEN (event_text e) with
  | Some i =>
      ({| followup_questions_started := true;
          followup_content := followup_content st ++ drop i (event_text e) |},
       if take i (event_text e) is [] then []
       else [YEvent (set_delta_content e (take i (event_text e)))])
  | None =>
      if has_choices e then
        if followup_questions_started st then
          ({| followup_questions_started := followup_questions_started st;
              followup_content := followup_content st ++ event_text e |}, [])
        else (st, [YEvent e])
      else (st, [])
  end.
Proof.
  intros Hs. unfold stream_step, event_text, has_choices.
  destruct (choices e) as [|c cs]; [done|]. by rewrite Hs.
Qed.

(** One iteration, follow-up questions not being requested. *)
Lemma stream_step_not_requested overrides st e :
  suggest_followup_questions overrides = false →
  followup_questions_started st = false →
  stream_step overrides st e = (st, if has_choices e then [YEvent e] else []).
Proof.
  intros Hs Hst. unfold stream_step, has_choices.
  destruct (choices e) as [|c cs]; [done|]. by rewrite Hs, Hst.
Qed.

(** The loop yields chunks only. *)
Lemma stream_step_chunks overrides st e :
  ∃ chunks, (stream_step overrides st e).2 = YEvent <$> chunks.
Proof.
  unfold stream_step. destruct (choices e) as [|c cs]; [by exists []|].
  destruct (if suggest_followup_questions overrides then _ else _) as [i|].
  - destruct (take i _); [by exists []|]. by eexists [_].
  - destruct (followup_questions_started st); [by exists []|by exists [e]].
Qed.

Lemma stream_loop_chunks overrides st events :
  ∃ chunks, (stream_loop overrides st events).2 = YEvent <$> chunks.
Proof.
  revert st. induction events as [|e events IH]; intros st; simpl.
  - by exists [].
  - destruct (stream_step_chunks overrides st e) as [c1 H1].
    destruct (stream_step overrides st e) as [st1 out1]. simpl in H1.
    destruct (IH st1) as [c2 H2].
    destruct (stream_loop overrides st1 events) as [st2 out2]. simpl in *.
    exists (c1 ++ c2). by rewrite H1, H2, fmap_app.
Qed.

(** X6: the order of what the generator yields.  The first event is the
    one that carries the context and the session state; then come chunks of
    the stream only; the event with the follow-up questions, if there is
    one, is the last, and there is at most one. *)
Theorem X6_stream_order (overrides : gmap str pyval)
    (extra_info session_state : pyval) (events : list event) :
  ∃ chunks tail,
    run_with_streaming overrides extra_info session_state events
    = YContext extra_info session_state :: (YEvent <$> chunks) ++ tail ∧
    (tail = [] ∨ ∃ questions, tail = [YFollowup questions]).
Proof.
  unfold run_with_streaming.
  destruct (stream_loop_chunks overrides stream_start events) as [chunks H].
  destruct (stream_loop overrides stream_start events) as [st out].
  simpl in H. subst out. exists chunks. eexists. split; [done|].
  destruct (followup_content st); eauto.
Qed.

Lemma stream_loop_not_requested overrides events :
  suggest_followup_questions overrides = false →
  stream_loop overrides stream_start events
  = (stream_start, YEvent <$> filter (λ e, has_choices e) events).
Proof.
  intros Hs. induction events as [|e events IH]; [done|].
  simpl. rewrite stream_step_not_requested, IH by done.
  rewrite filter_cons. destruct (has_choices e); done.
Qed.

Lemma stream_loop_not_requested_run overrides extra_info session_state events :
  suggest_followup_questions overrides = false →
  run_with_streaming overrides extra_info session_state events
  = YContext extra_info session_state
    :: (YEvent <$> filter (λ e, has_choices e) events).
Proof.
  intros Hs. unfold run_with_streaming.
  rewrite stream_loop_not_requested by done. simpl. by rewrite app_nil_r.
Qed.

(** X7: without the request for follow-up questions the generator passes
    the stream through: after the context event it yields every chunk that
    has choices, unchanged and in order, leaves out the chunks without
    choices, and yields no follow-up event, whatever the chunks hold. *)
Theorem X7_stream_pass_through (overrides : gmap str pyval)
    (extra_info session_state : pyval) (events : list event) :
  suggest_followup_questions overrides = false →
  run_with_streaming overrides extra_info session_state events
  = YContext extra_info session_state
    :: (YEvent <$> filter (λ e, has_choices e) events).
Proof.
  intros Hs. unfold run_with_streaming.
  rewrite stream_loop_not_requested by done. simpl. by rewrite app_nil_r.
Qed.

Lemma X7_stream_pass_through_witness :
  run_with_streaming ∅ PNone PNone
    [{| choices := []; event_other := PNone |};
     delta_event (lit "Yes. <<"); delta_event (lit "Why?>>")]
  = [YContext PNone PNone; YEvent (delta_event (lit "Yes. <<"));
     YEvent (delta_event (lit "Why?>>"))].
Proof.
  apply (X7_stream_pass_through ∅ PNone PNone
           [{| choices := []; event_other := PNone |};
            delta_event (lit "Yes. <<"); delta_event (lit "Why?>>")]).
  vm_compute. reflexivity.
Defined.

Lemma stream_step_no_marker overrides st e :
  suggest_followup_questions overrides = true →
  Forall no_marker_chunk (stream_step overrides st e).2.
Proof.
  intros Hs. rewrite stream_step_requested by done.
  destruct (str_index OPEN (event_text e)) as [i|] eqn:E.
  - destruct (take i (event_text e)) as [|a t] eqn:Ht; [constructor|].
    cbn [snd]. constructor; [|constructor]. cbn [no_marker_chunk].
    rewrite event_text_set_delta_content.
    + rewrite <- Ht. by apply str_index_take.
    + intros Hc. by rewrite (event_text_no_choices e Hc) in E.
  - destruct (has_choices e); [|constructor].
    destruct (followup_questions_started st); [constructor|].
    cbn [snd]. by repeat constructor.
Qed.

(** X8: with follow-up questions requested, no chunk the generator yields
    holds the marker ["<<"]: a chunk either has no marker and is passed on
    before any marker was seen, or is cut in front of its first marker. *)
Theorem X8_no_marker_in_chunks (overrides : gmap str pyval)
    (extra_info session_state : pyval) (events : list event) :
  suggest_followup_questions overrides = true →
  Forall no_marker_chunk
    (run_with_streaming overrides extra_info session_state events).
Proof.
  intros Hs. unfold run_with_streaming.
  assert (Hloop : ∀ st, Forall no_marker_chunk (stream_loop overrides st events).2).
  { induction events as [|e events IH]; intros st; simpl; [constructor|].
    pose proof (stream_step_no_marker overrides st e Hs) as H1.
    destruct (stream_step overrides st e) as [st1 out1].
    specialize (IH st1).
    destruct (stream_loop overrides st1 events) as [st2 out2].
    apply Forall_app. done. }
  specialize (Hloop stream_start).
  destruct (stream_loop overrides stream_start events) as [st out].
  constructor; [done|]. apply Forall_app. split; [done|].
  destruct (followup_content st); repeat constructor.
Qed.

Lemma X8_no_marker_in_chunks_witness :
  Forall no_marker_chunk
    (run_with_streaming {[ lit "suggest_followup_questions" := PBool true ]}
       PNone PNone
       [delta_event (lit "A. <<Q1?>>"); delta_event (lit ">> <<Q2?>>")]).
Proof.
  apply X8_no_marker_in_chunks. vm_compute. reflexivity.
Defined.

Lemma startswith_app_l p s r :
  startswith p s = true → startswith p (s ++ r) = true.
Proof.
  intros [x ->]%startswith_app. apply startswith_app.
  exists (x ++ r). by rewrite app_assoc.
Qed.

Lemma stream_step_inv overrides st e :
  suggest_followup_questions overrides = true →
  stream_inv st →
  let st' := (stream_step overrides st e).1 in
  stream_inv st' ∧
  (followup_questions_started st' = true ↔
   followup_questions_started st = true ∨
   str_contains OPEN (event_text e) = true).
Proof.
  intros Hs Hinv. rewrite stream_step_requested by done.
  unfold str_contains, stream_inv in *.
  destruct (str_index OPEN (event_text e)) as [i|] eqn:E; cbn [fst].
  - split; [|by split; eauto]. cbn [followup_questions_started followup_content].
    apply str_index_Some in E as (Hat & _ & _).
    destruct (followup_questions_started st).
    + by apply startswith_app_l.
    + by rewrite Hinv.
  - destruct (has_choices e);
      [|cbn [fst]; split; [done|]; split; [eauto|]; by intros [|]].
    destruct (followup_questions_started st) eqn:Hst;
      cbn [fst followup_questions_started followup_content].
    + split; [by apply startswith_app_l|]. by split; eauto.
    + rewrite Hst. split; [done|]. split; [done|]. by intros [|].
Qed.

Lemma stream_loop_inv overrides st events :
  suggest_followup_questions overrides = true →
  stream_inv st →
  let st' := (stream_loop overrides st events).1 in
  stream_inv st' ∧
  (followup_questions_started st' = true ↔
   followup_questions_started st = true ∨
   Exists (λ e, str_contains OPEN (event_text e) = true) events).
Proof.
  intros Hs. revert st. induction events as [|e events IH]; intros st Hinv.
  - simpl. split; [done|]. split; [eauto|]. intros [|H]; [done|].
    by apply Exists_nil in H.
  - simpl.
    destruct (stream_step_inv overrides st e Hs Hinv) as [Hinv1 Hst1].
    destruct (stream_step overrides st e) as [st1 out1]. cbn [fst] in *.
    destruct (IH st1 Hinv1) as [Hinv2 Hst2].
    destruct (stream_loop overrides st1 events) as [st2 out2]. cbn [fst] in *.
    split; [done|]. rewrite Hst2, Hst1, Exists_cons. tauto.
Qed.

(** X9: with follow-up questions requested, the generator ends with the
    follow-up event exactly when some chunk of the stream held the marker
    ["<<"]; the event is there even when no question could be extracted. *)
Theorem X9_followup_event_iff_marker (overrides : gmap str pyval)
    (extra_info session_state : pyval) (events : list event) :
  suggest_followup_questions overrides = true →
  (∃ questions,
     last (run_with_streaming overrides extra_info session_state events)
     = Some (YFollowup questions))
  ↔ Exists (λ e, str_contains OPEN (event_text e) = true) events.
Proof.
  intros Hs. unfold run_with_streaming.
  destruct (stream_loop_inv overrides stream_start events Hs) as [Hinv Hst];
    [done|].
  destruct (stream_loop_chunks overrides stream_start events) as [chunks Hc].
  destruct (stream_loop overrides stream_start events) as [st out].
  cbn [fst snd] in *. subst out. unfold stream_inv in Hinv.
  assert (Hst' : followup_questions_started st = true ↔
                 Exists (λ e, str_contains OPEN (event_text e) = true) events).
  { rewrite Hst. split; [by intros [|]|by right]. }
  rewrite <- Hst'. clear Hst Hst'.
  destruct (followup_content st) as [|a buffer] eqn:Hb.
  - rewrite app_nil_r. split.
    + intros [qs Hlast]. exfalso. revert Hlast.
      destruct chunks as [|c chunks _] using rev_ind; [done|].
      rewrite fmap_app. change (YEvent <$> [c]) with [YEvent c].
      by rewrite app_comm_cons, last_snoc.
    + intros Hstarted. rewrite Hstarted in Hinv. done.
  - split.
    + intros _. by destruct (followup_questions_started st).
    + intros _. eexists. rewrite app_comm_cons. apply last_snoc.
Qed.

Lemma X9_followup_event_iff_marker_witness :
  ∃ questions,
    last (run_with_streaming
            {[ lit "suggest_followup_questions" := PBool true ]} PNone PNone
            [delta_event (lit "Done <<"); delta_event (lit "unfinished")])
    = Some (YFollowup questions).
Proof.
  apply (X9_followup_event_iff_marker
           {[ lit "suggest_followup_questions" := PBool true ]} PNone PNone
           [delta_event (lit "Done <<"); delta_event (lit "unfinished")]).
  - vm_compute. reflexivity.
  - apply Exists_cons_hd. vm_compute. reflexivity.
Defined.

(** One iteration splits the text of the chunk between what is yielded and
    what is added to the buffer. *)
Lemma stream_step_split overrides st e :
  ∃ added,
    followup_content (stream_step overrides st e).1
    = followup_content st ++ added ∧
    event_text e = visible_content (stream_step overrides st e).2 ++ added.
Proof.
  unfold stream_step, event_text.
  destruct (choices e) as [|c cs] eqn:Hc.
  - exists []. by rewrite app_nil_r.
  - set (text := default [] (delta_content c)).
    destruct (if suggest_followup_questions overrides then _ else _) as [i|].
    + exists (drop i text). split; [done|]. cbn [snd].
      destruct (take i text) as [|a t] eqn:Ht.
      * by rewrite <- (take_drop i text) at 1; rewrite Ht.
      * unfold visible_content. cbn [fmap list_fmap mjoin list_join].
        rewrite event_text_set_delta_content by (by rewrite Hc).
        by rewrite app_nil_r, <- Ht, take_drop.
    + destruct (followup_questions_started st).
      * by exists text.
      * exists []. split; [by rewrite app_nil_r|]. cbn [snd].
        unfold visible_content, event_text.
        cbn [fmap list_fmap mjoin list_join]. rewrite Hc.
        by rewrite !app_nil_r.
Qed.

Lemma stream_loop_split overrides st events :
  ∃ added,
    followup_content (stream_loop overrides st events).1
    = followup_content st ++ added ∧
    full_content events
    ≡ₚ visible_content (stream_loop overrides st events).2 ++ added.
Proof.
  revert st. induction events as [|e events IH]; intros st; simpl.
  - exists []. by rewrite app_nil_r.
  - destruct (stream_step_split overrides st e) as (a1 & Hb1 & Ht1).
    destruct (stream_step overrides st e) as [st1 out1]. cbn [fst snd] in *.
    destruct (IH st1) as (a2 & Hb2 & Ht2).
    destruct (stream_loop overrides st1 events) as [st2 out2].
    cbn [fst snd] in *. exists (a1 ++ a2). split.
    + by rewrite Hb2, Hb1, app_assoc.
    + rewrite full_content_cons, Ht1, Ht2, visible_content_app.
      rewrite <- !app_assoc. apply Permutation_app_head.
      rewrite !app_assoc. apply Permutation_app_tail, Permutation_app_comm.
Qed.

(** X10: nothing of the model's output is lost or doubled by the loop.
    When the stream has ended, the characters of the response are, counted
    with multiplicity, those of the visible content yielded together with
    those of the follow-up buffer; in particular the lengths add up. *)
Theorem X10_stream_conserves_text (overrides : gmap str pyval)
    (events : list event) :
  let '(st, out) := stream_loop overrides stream_start events in
  full_content events ≡ₚ visible_content out ++ followup_content st ∧
  length (full_content events)
  = (length (visible_content out) + length (followup_content st))%nat.
Proof.
  destruct (stream_loop_split overrides stream_start events)
    as (added & Hb & Hperm).
  destruct (stream_loop overrides stream_start events) as [st out].
  cbn [fst snd] in *. rewrite Hb. cbn [followup_content stream_start app].
  split; [done|]. by rewrite Hperm, length_app.
Qed.

(** Once ACCUMULATING, chunks that hold no marker or start with it go to
    the buffer in full. *)
Lemma stream_loop_buffered overrides st events :
  suggest_followup_questions overrides = true →
  followup_questions_started st = true →
  Forall (λ e, str_index OPEN (event_text e) = None ∨
               str_index OPEN (event_text e) = Some 0%nat) events →
  followup_content (stream_loop overrides st events).1
  = followup_content st ++ full_content events.
Proof.
  intros Hs Hst Hall. revert st Hst.
  induction Hall as [|e events He _ IH]; intros st Hst; simpl.
  - by rewrite app_nil_r.
  - assert (Hstep : ∃ out,
              stream_step overrides st e
              = ({| followup_questions_started := true;
                    followup_content := followup_content st ++ event_text e |},
                 out)).
    { destruct He as [He|He].
      - rewrite (stream_step_accumulating overrides Hs st e Hst He). eauto.
      - destruct (stream_step_marker overrides Hs st e 0 He) as (out & -> & _).
        rewrite drop_0. eauto. }
    destruct Hstep as [out1 ->].
    specialize (IH {| followup_questions_started := true;
                      followup_content := followup_content st ++ event_text e |}
                   eq_refl).
    destruct (stream_loop overrides _ events) as [st2 out2]. cbn [fst] in *.
    rewrite IH. cbn [followup_content].
    by rewrite full_content_cons, app_assoc.
Qed.

Lemma streamed_followups_app out1 out2 :
  streamed_followups (out1 ++ out2)
  = streamed_followups out1 ++ streamed_followups out2.
Proof. unfold streamed_followups. by rewrite fmap_app, join_app. Qed.

Lemma streamed_followups_chunks chunks :
  streamed_followups (YEvent <$> chunks) = [].
Proof. induction chunks as [|c chunks IH]; [done|]. exact IH. Qed.

(** The follow-up questions the generator yields are those found in the
    buffer at the end of the stream. *)
Lemma streamed_followups_run overrides extra_info session_state events :
  streamed_followups
    (run_with_streaming overrides extra_info session_state events)
  = let buffer := followup_content (stream_loop overrides stream_start events).1 in
    if buffer is [] then [] else findall_followup buffer.
Proof.
  unfold run_with_streaming.
  destruct (stream_loop_chunks overrides stream_start events) as [chunks Hc].
  destruct (stream_loop overrides stream_start events) as [st out].
  cbn [fst snd] in *. subst out.
  change (YContext extra_info session_state :: ?l)
    with ([YContext extra_info session_state] ++ l).
  rewrite !streamed_followups_app, streamed_followups_chunks.
  destruct (followup_content st); [done|].
  unfold streamed_followups. cbn [fmap list_fmap mjoin list_join app].
  by rewrite app_nil_r.
Qed.

(** X11: the streaming and the non-streaming post-processor find the same
    follow-up questions.  With follow-up questions requested, for every
    splitting of a response into deltas in which the first ["<<"] lies
    inside one delta and every later delta that holds ["<<"] starts with
    it, the questions of the follow-up event (none when there is no such
    event) are the questions extracted from the full response. *)
Theorem X11_streamed_followups_agree (overrides : gmap str pyval)
    (extra_info session_state : pyval) (events : list event) :
  suggest_followup_questions overrides = true →
  marker_aligned events →
  streamed_followups
    (run_with_streaming overrides extra_info session_state events)
  = (extract_followup_questions (full_content events)).2.
Proof.
  intros Hs Haligned. rewrite streamed_followups_run. cbn [snd extract_followup_questions].
  destruct Haligned as [events Hnone|before e after i He Hbefore Hafter].
  - destruct (stream_loop_normal overrides Hs stream_start events)
      as (out & -> & _); [done| |].
    + apply Forall_forall. intros e He.
      by apply str_index_None_full with events.
    + cbn. by rewrite findall_no_open.
  - rewrite stream_loop_app.
    destruct (stream_loop_normal overrides Hs stream_start before)
      as (out0 & -> & _); [done| |].
    { apply Forall_forall. intros e' He'.
      apply str_index_None_part with (a := []) (c := take (S i) (event_text e))
        in Hbefore.
      by apply str_index_None_full with before. }
    cbn [stream_loop].
    destruct (stream_step_marker overrides Hs stream_start e i He)
      as (out1 & -> & _).
    pose proof (stream_loop_buffered overrides
                  {| followup_questions_started := true;
                     followup_content := followup_content stream_start
                                         ++ drop i (event_text e) |}
                  after Hs eq_refl Hafter) as Hbuf.
    destruct (stream_loop overrides _ after) as [st2 out2].
    cbn [fst followup_content stream_start app] in *. rewrite Hbuf.
    pose proof (first_open_of_full _ _ (full_content after) i He Hbefore)
      as Hfirst.
    assert (Hfull : full_content (before ++ e :: after)
              = (full_content before ++ take i (event_text e))
                ++ drop i (event_text e) ++ full_content after).
    { rewrite full_content_app, full_content_cons.
      rewrite <- (take_drop i (event_text e)) at 1. by rewrite <- !app_assoc. }
    rewrite Hfull.
    rewrite (findall_followup_skip
               (full_content before ++ take i (event_text e))
               (drop i (event_text e) ++ full_content after)).
    + apply str_index_Some in He as (Hat & _ & _).
      apply startswith_app in Hat as [r Hr]. rewrite Hr. done.
    + intros k Hk. rewrite <- Hfull, full_content_app, full_content_cons.
      destruct (match_followup (drop k _)) as [m|] eqn:E; [|done].
      apply match_followup_startswith in E.
      apply str_index_Some in Hfirst as (_ & _ & Hno).
      rewrite Hno in E; [done|].
      rewrite length_app, length_take in Hk.
      apply str_index_Some in He as (_ & ? & _). lia.
Qed.

Lemma X11_streamed_followups_agree_witness :
  streamed_followups
    (run_with_streaming {[ lit "suggest_followup_questions" := PBool true ]}
       PNone PNone
       [delta_event (lit "Here"); delta_event (lit " is <<Q1");
        delta_event (lit "?>>"); delta_event (lit "<<Q2?>>")])
  = [lit "Q1?"; lit "Q2?"].
Proof.
  apply (X11_streamed_followups_agree
           {[ lit "suggest_followup_questions" := PBool true ]} PNone PNone
           [delta_event (lit "Here"); delta_event (lit " is <<Q1");
            delta_event (lit "?>>"); delta_event (lit "<<Q2?>>")]).
  - vm_compute. reflexivity.
  - apply (aligned_marker [delta_event (lit "Here")]
             (delta_event (lit " is <<Q1"))
             [delta_event (lit "?>>"); delta_event (lit "<<Q2?>>")] 4).
    + vm_compute. reflexivity.
    + vm_compute. reflexivity.
    + apply Forall_cons. split; [left; vm_compute; reflexivity|].
      apply Forall_cons. split; [right; vm_compute; reflexivity|].
      apply Forall_nil. exact I.
Defined.

Lemma stream_loop_skip_no_choices overrides st events :
  stream_loop overrides st (filter (λ e, has_choices e) events)
  = stream_loop overrides st events.
Proof.
  revert st. induction events as [|e events IH]; intros st; [done|].
  rewrite filter_cons. destruct (has_choices e) eqn:He; simpl.
  - destruct (stream_step overrides st e). by rewrite IH.
  - rewrite IH. unfold stream_step, has_choices in *.
    destruct (choices e); [|done]. by destruct (stream_loop overrides st events).
Qed.

(** X12: chunks without choices have no effect.  Whether or not follow-up
    questions are requested, leaving the chunks whose list of choices is
    empty out of the stream does not change what the generator yields. *)
Theorem X12_chunks_without_choices_ignored (overrides : gmap str pyval)
    (extra_info session_state : pyval) (events : list event) :
  run_with_streaming overrides extra_info session_state
    (filter (λ e, has_choices e) events)
  = run_with_streaming overrides extra_info session_state events.
Proof.
  unfold run_with_streaming. by rewrite stream_loop_skip_no_choices.
Qed.

(* ===================================================================== *)
(** * Further properties of the search query extraction *)
(* ===================================================================== *)

Lemma py_eq_str_true v s : py_eq_str v s = true ↔ v = PStr s.
Proof.
  destruct v; simpl; try (split; [done|discriminate]).
  rewrite bool_decide_eq_true. split; [by intros ->|by intros [= ->]].
Qed.

Lemma search_query_of_tools_sentinel json_loads tools user_query :
  search_query_of_tools json_loads tools user_query = Ok (PStr NO_RESPONSE) →
  user_query = NO_RESPONSE.
Proof.
  induction tools as [|tool tools IH]; simpl.
  - by intros [= ->].
  - destruct (bool_decide (tc_type tool = lit "function")); simpl; [|done].
    destruct (bool_decide (fn_name (tc_function tool) = lit "search_sources"));
      [|done].
    destruct (json_loads (fn_arguments (tc_function tool))) as [arg|];
      simpl; [|done].
    destruct (arg_get_search_query arg) as [search_query|]; simpl; [|done].
    destruct (py_eq_str search_query NO_RESPONSE) eqn:E; simpl; [done|].
    intros [= ->]. by rewrite (proj2 (py_eq_str_true _ _)) in E.
Qed.

(** X13: the sentinel is never handed on as a search query.  Unless the
    raw user query is itself "0", [get_search_query] does not return the
    string "0", whatever the completion holds. *)
Theorem X13_sentinel_never_returned (json_loads : str → res pyval)
    (completion : chat_completion) (user_query : str) :
  user_query ≠ NO_RESPONSE →
  get_search_query json_loads completion user_query ≠ Ok (PStr NO_RESPONSE).
Proof.
  intros Hq. unfold get_search_query.
  destruct (first_item (cc_choices completion)) as [msg|];
    [rewrite res_bind_Ok|done].
  destruct (msg_tool_calls msg) as [[|tool rest]|].
  2: { intros H. by apply search_query_of_tools_sentinel in H. }
  all: destruct (msg_content msg) as [[|c t]|]; try by intros [= ->].
  all: destruct (bool_decide (str_strip (c :: t) = NO_RESPONSE)) eqn:E; simpl;
    try by intros [= ->].
  all: intros H; assert (H' : c :: t = NO_RESPONSE) by congruence;
    rewrite H' in E; done.
Qed.

Lemma X13_sentinel_never_returned_witness :
  get_search_query json_loads_examples
    {| cc_choices := [{| msg_content := Some (lit " 0 ");
                         msg_tool_calls := None |}] |}
    (lit "raw question")
  ≠ Ok (PStr NO_RESPONSE).
Proof.
  apply (X13_sentinel_never_returned json_loads_examples _ (lit "raw question")).
  discriminate.
Defined.

(** X14: how [get_search_query] fails.  A completion without choices
    raises [IndexError].  When the first tool call that is not passed over
    is a function call of [search_sources], an error of the JSON decoder on
    its arguments is raised to the caller, and arguments that decode to
    anything but a dict raise [AttributeError]; the calls behind it and the
    text content are not looked at. *)
Theorem X14_search_query_errors (json_loads : str → res pyval)
    (user_query : str) :
  get_search_query json_loads {| cc_choices := [] |} user_query
  = Raise IndexError ∧
  ∀ msg others before tool after,
    msg_tool_calls msg = Some (before ++ tool :: after) →
    Forall (passed_over json_loads) before →
    tc_type tool = lit "function" →
    fn_name (tc_function tool) = lit "search_sources" →
    let result :=
      get_search_query json_loads {| cc_choices := msg :: others |} user_query in
    (∀ e, json_loads (fn_arguments (tc_function tool)) = Raise e →
          result = Raise e) ∧
    (∀ arg, json_loads (fn_arguments (tc_function tool)) = Ok arg →
            (∀ d, arg ≠ PDict d) → result = Raise AttributeError).
Proof.
  split; [done|].
  intros msg others before tool after Htools Hbefore Htype Hname result.
  assert (Hresult : result
            = search_query_of_tools json_loads (tool :: after) user_query).
  { unfold result, get_search_query. cbn [cc_choices first_item].
    rewrite res_bind_Ok, Htools. clear Htools.
    transitivity (search_query_of_tools json_loads (before ++ tool :: after)
                    user_query); [by destruct before|].
    induction Hbefore as [|t before Hp _ IH]; [done|].
    by rewrite <- app_comm_cons, search_query_of_tools_passed. }
  rewrite Hresult. cbn [search_query_of_tools].
  rewrite (bool_decide_eq_true_2 _ Htype), (bool_decide_eq_true_2 _ Hname).
  cbn [negb]. split.
  - by intros e ->.
  - intros arg -> Hnot. rewrite res_bind_Ok.
    destruct arg; try done. by destruct (Hnot d).
Qed.

Lemma X14_search_query_errors_witness :
  let broken_call :=
    {| tc_type := lit "function";
       tc_function := {| fn_name := lit "search_sources";
                         fn_arguments := lit "{oops" |} |} in
  let rent_call :=
    {| tc_type := lit "function";
       tc_function := {| fn_name := lit "search_sources";
                         fn_arguments := rent_arguments |} |} in
  get_search_query json_loads_examples
    {| cc_choices :=
         [{| msg_content := Some (lit "fallback text");
             msg_tool_calls := Some [broken_call; rent_call] |}] |}
    (lit "raw question")
  = Raise JSONDecodeError.
Proof.
  intros broken_call rent_call.
  set (msg := {| msg_content := Some (lit "fallback text");
                 msg_tool_calls := Some [broken_call; rent_call] |}).
  refine (proj1 (proj2 (X14_search_query_errors json_loads_examples
                          (lit "raw question"))
                   msg [] [] broken_call [rent_call] eq_refl _ eq_refl eq_refl)
            JSONDecodeError _).
  - constructor.
  - vm_compute. reflexivity.
Defined.

(* ===================================================================== *)
(** * Further properties of the prompt assembly *)
(* ===================================================================== *)

Lemma all_but_last_snoc {A} (l : list A) (x : A) : all_but_last (l ++ [x]) = l.
Proof.
  unfold all_but_last. rewrite length_app. simpl.
  replace (length l + 1 - 1)%nat with (length l) by lia.
  apply take_app_length.
Qed.

(** X15: what is kept of the history is its most recent part.  Whenever
    [get_messages_from_history] returns, the list is the system prompt, the
    few-shot messages in their order, a suffix of the history without its
    last entry in chronological order, and the new user turn: only the
    oldest entries are missing. *)
Theorem X15_kept_history_is_suffix (count : message → str → res nat)
    (system_prompt model_id : str) (history : list message)
    (user_content : pyval) (max_tokens : Z) (few_shots msgs : list message) :
  get_messages_from_history count system_prompt model_id history
    user_content max_tokens few_shots = Ok msgs →
  ∃ j, msgs = Message SYSTEM (PStr system_prompt) :: few_shots
              ++ drop j (all_but_last history)
              ++ [Message USER user_content].
Proof.
  rewrite get_messages_from_history_eq.
  destruct (total_cost count model_id _) as [base|]; [rewrite res_bind_Ok|done].
  destruct (accepted count model_id max_tokens base _) as [acc|] eqn:Hacc;
    [rewrite res_bind_Ok|done].
  intros [= <-].
  destruct (accepted_prefix count _ _ _ _ _ Hacc) as (k & c & -> & _ & _).
  exists (length (all_but_last history) - k)%nat.
  by rewrite reverse_take, length_reverse, reverse_involutive.
Qed.

Lemma X15_kept_history_is_suffix_witness :
  let history :=
    [Message USER (PStr (lit "a")); Message ASSISTANT (PStr (lit "bbbbbbbb"));
     Message USER (PStr (lit "cc")); Message ASSISTANT (PStr (lit "dd"));
     Message USER (PStr (lit "e"))] in
  ∃ j, [Message SYSTEM (PStr (lit "S")); Message USER (PStr (lit "cc"));
        Message ASSISTANT (PStr (lit "dd")); Message USER (PStr (lit "e"))]
       = Message SYSTEM (PStr (lit "S")) :: []
         ++ drop j (all_but_last history) ++ [Message USER (PStr (lit "e"))].
Proof.
  intros history.
  apply (X15_kept_history_is_suffix length_count (lit "S") (lit "gpt-4")
           history (PStr (lit "e")) 8 []).
  vm_compute. reflexivity.
Defined.

Lemma accepted_mono count model_id max_tokens max_tokens' l :
  max_tokens ≤ max_tokens' → ∀ total kept kept',
  accepted count model_id max_tokens total l = Ok kept →
  accepted count model_id max_tokens' total l = Ok kept' →
  ∃ more, kept' = kept ++ more.
Proof.
  intros Hle. induction l as [|m l IH]; intros total kept kept'; simpl.
  - intros [= <-] [= <-]. by exists [].
  - destruct (count m model_id) as [c|]; simpl; [|done].
    destruct (Z.gtb_spec (Z.of_nat (total + c)) max_tokens).
    + intros [= <-] _. by exists kept'.
    + destruct (Z.gtb_spec (Z.of_nat (total + c)) max_tokens'); [lia|].
      destruct (accepted count model_id max_tokens _ l) as [a|] eqn:Ha;
        simpl; [|done].
      destruct (accepted count model_id max_tokens' _ l) as [a'|] eqn:Ha';
        simpl; [|done].
      intros [= <-] [= <-]. destruct (IH _ _ _ Ha Ha') as [more ->].
      by exists more.
Qed.

(** X16: a higher ceiling never costs a message.  If the assembly returns
    under a ceiling and under a higher one, the second list is the first
    with further, older history entries put in front of the kept ones. *)
Theorem X16_ceiling_monotone (count : message → str → res nat)
    (system_prompt model_id : str) (history : list message)
    (user_content : pyval) (max_tokens max_tokens' : Z)
    (few_shots msgs msgs' : list message) :
  max_tokens ≤ max_tokens' →
  get_messages_from_history count system_prompt model_id history
    user_content max_tokens few_shots = Ok msgs →
  get_messages_from_history count system_prompt model_id history
    user_content max_tokens' few_shots = Ok msgs' →
  ∃ kept older,
    msgs = Message SYSTEM (PStr system_prompt) :: few_shots
           ++ kept ++ [Message USER user_content] ∧
    msgs' = Message SYSTEM (PStr system_prompt) :: few_shots
            ++ (older ++ kept) ++ [Message USER user_content].
Proof.
  intros Hle. rewrite !get_messages_from_history_eq.
  destruct (total_cost count model_id _) as [base|]; [rewrite !res_bind_Ok|done].
  destruct (accepted count model_id max_tokens base _) as [a|] eqn:Ha;
    [rewrite res_bind_Ok|done].
  destruct (accepted count model_id max_tokens' base _) as [a'|] eqn:Ha';
    [rewrite res_bind_Ok|done].
  intros [= <-] [= <-].
  destruct (accepted_mono count model_id _ _ _ Hle _ _ _ Ha Ha') as [more ->].
  exists (reverse a), (reverse more). by rewrite reverse_app.
Qed.

Lemma X16_ceiling_monotone_witness :
  let history :=
    [Message USER (PStr (lit "a")); Message ASSISTANT (PStr (lit "bbbbbbbb"));
     Message USER (PStr (lit "cc")); Message ASSISTANT (PStr (lit "dd"));
     Message USER (PStr (lit "e"))] in
  ∃ kept older,
    [Message SYSTEM (PStr (lit "S")); Message USER (PStr (lit "cc"));
     Message ASSISTANT (PStr (lit "dd")); Message USER (PStr (lit "e"))]
    = Message SYSTEM (PStr (lit "S")) :: [] ++ kept
      ++ [Message USER (PStr (lit "e"))] ∧
    Message SYSTEM (PStr (lit "S")) :: history
    = Message SYSTEM (PStr (lit "S")) :: [] ++ (older ++ kept)
      ++ [Message USER (PStr (lit "e"))].
Proof.
  intros history.
  apply (X16_ceiling_monotone length_count (lit "S") (lit "gpt-4") history
           (PStr (lit "e")) 8 100 []).
  - lia.
  - vm_compute. reflexivity.
  - vm_compute. reflexivity.
Defined.

(** X17: the last entry of the history plays no part.  The assembly gives
    the same result whatever that entry is, and the same for a history of
    one entry as for the empty history: the new user turn comes from
    [user_content] alone, and an empty history raises no error. *)
Theorem X17_last_entry_ignored (count : message → str → res nat)
    (system_prompt model_id : str) (history : list message)
    (newest newest' : message) (user_content : pyval) (max_tokens : Z)
    (few_shots : list message) :
  get_messages_from_history count system_prompt model_id (history ++ [newest])
    user_content max_tokens few_shots
  = get_messages_from_history count system_prompt model_id
      (history ++ [newest']) user_content max_tokens few_shots ∧
  get_messages_from_history count system_prompt model_id [newest]
    user_content max_tokens few_shots
  = get_messages_from_history count system_prompt model_id []
      user_content max_tokens few_shots.
Proof.
  rewrite !get_messages_from_history_eq.
  destruct (total_cost count model_id _) as [base|]; [|done].
  rewrite !res_bind_Ok. by rewrite !all_but_last_snoc.
Qed.

(** X18: a ceiling below the cost of the mandatory messages.  When the
    system prompt, the few-shot messages and the new user turn together
    cost more than the ceiling, and the counter succeeds on the history
    entry the walk starts with (if there is one), the assembly returns
    exactly those mandatory messages: no history, no error, and a list
    that is over the ceiling. *)
Theorem X18_ceiling_below_mandatory (count : message → str → res nat)
    (system_prompt model_id : str) (history : list message)
    (user_content : pyval) (max_tokens : Z) (few_shots : list message)
    (base : nat) :
  total_cost count model_id
    (mandatory system_prompt few_shots user_content) = Ok base →
  Z.of_nat base > max_tokens →
  (∀ m, last (all_but_last history) = Some m → ∃ c, count m model_id = Ok c) →
  get_messages_from_history count system_prompt model_id history
    user_content max_tokens few_shots
  = Ok (mandatory system_prompt few_shots user_content).
Proof.
  intros Hbase Hgt Hfirst.
  rewrite get_messages_from_history_eq, Hbase, res_bind_Ok.
  rewrite <- head_reverse in Hfirst.
  destruct (reverse (all_but_last history)) as [|m nto]; [done|].
  destruct (Hfirst m eq_refl) as [c Hc]. cbn [accepted].
  rewrite Hc, res_bind_Ok.
  destruct (Z.gtb_spec (Z.of_nat (base + c)) max_tokens); [done|lia].
Qed.

Lemma X18_ceiling_below_mandatory_witness :
  get_messages_from_history (flat_count 4) (lit "S") (lit "gpt-4")
    [Message USER (PStr (lit "Q1")); Message ASSISTANT (PStr (lit "A1"));
     Message USER (PStr (lit "Q2"))] (PStr (lit "Q2")) (-5) []
  = Ok [Message SYSTEM (PStr (lit "S")); Message USER (PStr (lit "Q2"))].
Proof.
  apply (X18_ceiling_below_mandatory (flat_count 4) (lit "S") (lit "gpt-4")
           _ (PStr (lit "Q2")) (-5) [] 8).
  - reflexivity.
  - lia.
  - intros m _. by exists 4%nat.
Defined.

Lemma total_cost_raise count model_id before m after e :
  Forall (λ x, ∃ n, count x model_id = Ok n) before →
  count m model_id = Raise e →
  total_cost count model_id (before ++ m :: after) = Raise e.
Proof.
  induction 1 as [|x before [n Hn] _ IH]; intros Hm; simpl.
  - by rewrite Hm.
  - rewrite Hn, res_bind_Ok. by rewrite IH.
Qed.

(** X19: the token counter's errors on the mandatory messages.  If the
    counter raises on the system prompt, on a few-shot message or on the
    new user turn, having succeeded on the mandatory messages before it,
    the assembly raises that error, whatever the history and the ceiling
    are. *)
Theorem X19_mandatory_count_error (count : message → str → res nat)
    (system_prompt model_id : str) (history : list message)
    (user_content : pyval) (max_tokens : Z) (few_shots : list message)
    (before after : list message) (m : message) (e : exn) :
  mandatory system_prompt few_shots user_content = before ++ m :: after →
  Forall (λ x, ∃ n, count x model_id = Ok n) before →
  count m model_id = Raise e →
  get_messages_from_history count system_prompt model_id history
    user_content max_tokens few_shots = Raise e.
Proof.
  intros Hsplit Hbefore Hm.
  rewrite get_messages_from_history_eq, Hsplit.
  by rewrite (total_cost_raise count model_id before m after e).
Qed.

Lemma X19_mandatory_count_error_witness :
  get_messages_from_history strict_count (lit "S") (lit "gpt-4")
    [Message USER (PStr (lit "Q"))] (PDict ∅) 8100 []
  = Raise ValueError.
Proof.
  apply (X19_mandatory_count_error strict_count (lit "S") (lit "gpt-4")
           _ (PDict ∅) 8100 [] [Message SYSTEM (PStr (lit "S"))] []
           (Message USER (PDict ∅)) ValueError).
  - reflexivity.
  - repeat constructor. by exists 4%nat.
  - reflexivity.
Defined.

(* ===================================================================== *)
(** * Further properties of the retrieval step *)
(* ===================================================================== *)

Lemma flag_and_text_with_text (overrides : gmap str pyval) (flag : str) :
  has_text overrides = true →
  flag_and_text overrides flag = PBool (py_truthy (dict_get overrides flag)).
Proof.
  intros H. unfold flag_and_text, py_and. rewrite H.
  by destruct (py_truthy (dict_get overrides flag)) eqn:E; rewrite ?E.
Qed.

Lemma text_mode (overrides : gmap str pyval) :
  overrides !! lit "retrieval_mode" = Some (PStr (lit "text")) →
  has_text overrides = true ∧ has_vector overrides = false.
Proof. intros H. unfold has_text, has_vector, dict_get. rewrite H. done. Qed.

Section RetrievalFacts.

Variable dict_iter : gmap str pyval → list str.
Variable count : message → str → res nat.
Variable json_loads : str → res pyval.
Variable gpt4v_model : str.
Variable chatgpt_token_limit : Z.
Variable query_prompt_template : str.
Variable query_prompt_few_shots : list message.
Variable build_filter : gmap str pyval → pyval → res pyval.
Variable chat_completions_create : list message → res chat_completion.

(** The vision approach, seen from the distilled query on. *)
Lemma vision_call_with_eq te ie history overrides auth_claims :
  vision_call_with dict_iter count json_loads gpt4v_model chatgpt_token_limit
    query_prompt_template query_prompt_few_shots build_filter
    chat_completions_create te ie history overrides auth_claims
  = (filter ← build_filter overrides auth_claims;
     '(original_user_query, query_text) ←
       distilled_query count json_loads gpt4v_model chatgpt_token_limit
         query_prompt_template query_prompt_few_shots
         chat_completions_create history;
     vectors ←
       (if has_vector overrides then
          vector_fields ← vector_fields_of dict_iter overrides;
          compute_vectors te ie vector_fields query_text
        else Ok []);
     Ok {| sc_top := dict_get_or overrides (lit "top") (PInt 3);
           sc_query_text :=
             if negb (has_text overrides) then PNone else query_text;
           sc_filter := filter;
           sc_vectors := vectors;
           sc_use_semantic_ranker :=
             flag_and_text overrides (lit "semantic_ranker");
           sc_use_semantic_captions :=
             flag_and_text overrides (lit "semantic_captions");
           sc_minimum_search_score :=
             dict_get_or overrides (lit "minimum_search_score")
                         (PFloat 0%float);
           sc_minimum_reranker_score :=
             dict_get_or overrides (lit "minimum_reranker_score")
                         (PFloat 0%float) |}).
Proof.
  unfold vision_call_with, vision_search_call, distilled_query.
  destruct (build_filter overrides auth_claims) as [filter|];
    [rewrite !res_bind_Ok|done].
  destruct (last_item history) as [newest|]; [rewrite !res_bind_Ok|done].
  destruct (content_text newest) as [q|]; [rewrite !res_bind_Ok|done].
  destruct (vision_query_messages _ _ _ _ _ _ _) as [msgs|];
    [rewrite !res_bind_Ok|done].
  destruct (chat_completions_create msgs) as [completion|];
    [rewrite !res_bind_Ok|done].
  destruct (get_search_query json_loads completion q) as [query_text|];
    [rewrite !res_bind_Ok|done].
  done.
Qed.

End RetrievalFacts.

(** The arguments of a search call that the properties below read. *)
Ltac sc_fields :=
  cbn [sc_query_text sc_vectors sc_use_semantic_ranker
       sc_use_semantic_captions].

Section RetrievalProperties.

Variable dict_iter : gmap str pyval → list str.
Variable count : message → str → res nat.
Variable json_loads : str → res pyval.
Variable gpt4v_model : str.
Variable chatgpt_token_limit : Z.
Variable query_prompt_template : str.
Variable query_prompt_few_shots : list message.
Variable build_filter : gmap str pyval → pyval → res pyval.
Variable chat_completions_create : list message → res chat_completion.
Variable compute_text_embedding : pyval → res pyval.
Variable compute_image_embedding : pyval → res pyval.

(** X20: retrieval mode "text".  Both approaches call the search
    collaborator without vectors and with a query text: the vision approach
    with the distilled query, retrieve-then-read with the content of the
    last message.  The semantic captions flag is the truth value of its
    override, and so is the semantic ranker flag, up to truth value in
    retrieve-then-read. *)
Theorem X20_text_mode_search_arguments (overrides : gmap str pyval)
    (history : list message) (auth_claims : pyval) :
  overrides !! lit "retrieval_mode" = Some (PStr (lit "text")) →
  (∀ call,
      vision_search_call dict_iter count json_loads gpt4v_model
        chatgpt_token_limit query_prompt_template query_prompt_few_shots
        build_filter chat_completions_create compute_text_embedding
        compute_image_embedding history overrides auth_claims = Ok call →
      sc_vectors call = [] ∧
      (∃ question,
         distilled_query count json_loads gpt4v_model chatgpt_token_limit
           query_prompt_template query_prompt_few_shots
           chat_completions_create history
         = Ok (question, sc_query_text call)) ∧
      sc_use_semantic_ranker call
      = PBool (py_truthy (dict_get overrides (lit "semantic_ranker"))) ∧
      sc_use_semantic_captions call
      = PBool (py_truthy (dict_get overrides (lit "semantic_captions")))) ∧
  (∀ call,
      retrievethenread_search_call build_filter compute_text_embedding
        history overrides auth_claims = Ok call →
      sc_vectors call = [] ∧
      (∃ newest, last history = Some newest ∧
                 sc_query_text call = content newest) ∧
      py_truthy (sc_use_semantic_ranker call)
      = py_truthy (dict_get overrides (lit "semantic_ranker")) ∧
      sc_use_semantic_captions call
      = PBool (py_truthy (dict_get overrides (lit "semantic_captions")))).
Proof.
  intros [Htext Hvec]%text_mode. split.
  - intros call.
    change (vision_search_call _ _ _ _ _ _ _ _ _ _ _ history overrides
              auth_claims)
      with (vision_call_with dict_iter count json_loads gpt4v_model
              chatgpt_token_limit query_prompt_template query_prompt_few_shots
              build_filter chat_completions_create compute_text_embedding
              compute_image_embedding history overrides auth_claims).
    rewrite vision_call_with_eq, Hvec, Htext.
    rewrite !flag_and_text_with_text by done.
    destruct (build_filter overrides auth_claims) as [filter|];
      [rewrite !res_bind_Ok|done].
    destruct (distilled_query _ _ _ _ _ _ _ _) as [[question query_text]|];
      [rewrite !res_bind_Ok|done].
    intros [= <-]. sc_fields. eauto.
  - intros call. unfold retrievethenread_search_call.
    rewrite Hvec, Htext, !flag_and_text_with_text by done.
    unfold last_item.
    destruct (last history) as [newest|]; [rewrite !res_bind_Ok|done].
    destruct (build_filter overrides auth_claims) as [filter|];
      [rewrite !res_bind_Ok|done].
    intros [= <-]. sc_fields. split; [done|]. split; [eauto|]. split; [|done].
    unfold py_and. by destruct (py_truthy (dict_get _ _)) eqn:E.
Qed.

(** X21: no embedding without vectors.  When the retrieval mode does not
    include vectors (it is "text", or none of the known names), neither
    approach consults the embedding services: the outcome, arguments or
    error, is the same whatever those services do. *)
Theorem X21_no_embedding_without_vectors (overrides : gmap str pyval)
    (history : list message) (auth_claims : pyval)
    (other_text_embedding other_image_embedding : pyval → res pyval) :
  has_vector overrides = false →
  vision_search_call dict_iter count json_loads gpt4v_model chatgpt_token_limit
    query_prompt_template query_prompt_few_shots build_filter
    chat_completions_create compute_text_embedding compute_image_embedding
    history overrides auth_claims
  = vision_search_call dict_iter count json_loads gpt4v_model
      chatgpt_token_limit query_prompt_template query_prompt_few_shots
      build_filter chat_completions_create other_text_embedding
      other_image_embedding
      history overrides auth_claims ∧
  retrievethenread_search_call build_filter compute_text_embedding
    history overrides auth_claims
  = retrievethenread_search_call build_filter other_text_embedding
      history overrides auth_claims.
Proof.
  intros Hvec. split.
  - unfold vision_search_call. by rewrite Hvec.
  - unfold retrievethenread_search_call. by rewrite Hvec.
Qed.

(** X22: retrieval mode "hybrid", or none given.  Retrieve-then-read sends
    the content of the last message both as query text and, embedded, as
    the one vector.  The vision approach, with the default vector fields,
    sends the distilled query as query text and its text embedding as the
    one vector. *)
Theorem X22_hybrid_mode_search_arguments (overrides : gmap str pyval)
    (history : list message) (auth_claims : pyval) :
  dict_get overrides (lit "retrieval_mode") = PNone ∨
  dict_get overrides (lit "retrieval_mode") = PStr (lit "hybrid") →
  (∀ call,
      retrievethenread_search_call build_filter compute_text_embedding
        history overrides auth_claims = Ok call →
      ∃ newest vector,
        last history = Some newest ∧
        sc_query_text call = content newest ∧
        compute_text_embedding (content newest) = Ok vector ∧
        sc_vectors call = [vector]) ∧
  (∀ call,
      overrides !! lit "vector_fields" = None →
      vision_search_call dict_iter count json_loads gpt4v_model
        chatgpt_token_limit query_prompt_template query_prompt_few_shots
        build_filter chat_completions_create compute_text_embedding
        compute_image_embedding history overrides auth_claims = Ok call →
      ∃ question vector,
        distilled_query count json_loads gpt4v_model chatgpt_token_limit
          query_prompt_template query_prompt_few_shots
          chat_completions_create history
        = Ok (question, sc_query_text call) ∧
        compute_text_embedding (sc_query_text call) = Ok vector ∧
        sc_vectors call = [vector]).
Proof.
  intros Hmode.
  assert (Hboth : has_text overrides = true ∧ has_vector overrides = true).
  { unfold has_text, has_vector. by destruct Hmode as [-> | ->]. }
  destruct Hboth as [Htext Hvec]. split.
  - intros call. unfold retrievethenread_search_call, last_item.
    rewrite Hvec, Htext.
    destruct (last history) as [newest|]; [rewrite !res_bind_Ok|done].
    destruct (build_filter overrides auth_claims) as [filter|];
      [rewrite !res_bind_Ok|done].
    destruct (compute_text_embedding (content newest)) as [vector|] eqn:Ev;
      [rewrite !res_bind_Ok|done].
    intros [= <-]. sc_fields. eauto 10.
  - intros call Hfields.
    change (vision_search_call _ _ _ _ _ _ _ _ _ _ _ history overrides
              auth_claims)
      with (vision_call_with dict_iter count json_loads gpt4v_model
              chatgpt_token_limit query_prompt_template query_prompt_few_shots
              build_filter chat_completions_create compute_text_embedding
              compute_image_embedding history overrides auth_claims).
    rewrite vision_call_with_eq, Hvec, Htext.
    destruct (build_filter overrides auth_claims) as [filter|];
      [rewrite !res_bind_Ok|done].
    destruct (distilled_query _ _ _ _ _ _ _ _) as [[question query_text]|];
      [rewrite !res_bind_Ok|done].
    unfold vector_fields_of, dict_get_or. rewrite Hfields. cbn [default].
    rewrite res_bind_Ok. cbn [compute_vectors].
    change (py_eq_str (PStr (lit "embedding")) (lit "embedding")) with true.
    cbv iota.
    destruct (compute_text_embedding query_text) as [vector|] eqn:Ev;
      [rewrite !res_bind_Ok|done].
    intros [= <-]. sc_fields. eauto 10.
Qed.

(** X23: a retrieval mode that is none of "text", "vectors", "hybrid" and
    [None] (a misspelt name, say) switches both text and vectors off: both
    approaches call the search collaborator with the query text [None], no
    vectors, the captions flag [False] and a ranker flag that is false. *)
Theorem X23_unknown_mode_search_arguments (overrides : gmap str pyval)
    (history : list message) (auth_claims : pyval) :
  has_text overrides = false →
  has_vector overrides = false →
  (∀ call,
      vision_search_call dict_iter count json_loads gpt4v_model
        chatgpt_token_limit query_prompt_template query_prompt_few_shots
        build_filter chat_completions_create compute_text_embedding
        compute_image_embedding history overrides auth_claims = Ok call →
      sc_query_text call = PNone ∧ sc_vectors call = [] ∧
      sc_use_semantic_ranker call = PBool false ∧
      sc_use_semantic_captions call = PBool false) ∧
  (∀ call,
      retrievethenread_search_call build_filter compute_text_embedding
        history overrides auth_claims = Ok call →
      sc_query_text call = PNone ∧ sc_vectors call = [] ∧
      py_truthy (sc_use_semantic_ranker call) = false ∧
      sc_use_semantic_captions call = PBool false).
Proof.
  intros Htext Hvec. split.
  - intros call.
    change (vision_search_call _ _ _ _ _ _ _ _ _ _ _ history overrides
              auth_claims)
      with (vision_call_with dict_iter count json_loads gpt4v_model
              chatgpt_token_limit query_prompt_template query_prompt_few_shots
              build_filter chat_completions_create compute_text_embedding
              compute_image_embedding history overrides auth_claims).
    rewrite vision_call_with_eq, Hvec, Htext.
    rewrite !flag_and_text_no_text by done.
    destruct (build_filter overrides auth_claims) as [filter|];
      [rewrite !res_bind_Ok|done].
    destruct (distilled_query _ _ _ _ _ _ _ _) as [[question query_text]|];
      [rewrite !res_bind_Ok|done].
    by intros [= <-].
  - intros call. unfold retrievethenread_search_call.
    rewrite Hvec, Htext, !flag_and_text_no_text by done.
    destruct (last_item history) as [newest|]; [rewrite !res_bind_Ok|done].
    destruct (build_filter overrides auth_claims) as [filter|];
      [rewrite !res_bind_Ok|done].
    intros [= <-]. sc_fields.
    by destruct (py_and_false_falsy (dict_get overrides (lit "semantic_ranker")))
      as (-> & _ & _).
Qed.

End RetrievalProperties.

Lemma X20_text_mode_search_arguments_witness :
  let overrides : gmap str pyval :=
    {[ lit "retrieval_mode" := PStr (lit "text");
       lit "semantic_ranker" := PInt 1 ]} in
  ∃ call,
    vision_search_call keys_in_map_order (flat_count 4)
      json_loads_examples (lit "gpt-4") 8100
      (lit "T") [] no_filter (answer_with (lit "notice period"))
      failing_embedding failing_embedding notice_history overrides PNone
    = Ok call ∧
    sc_vectors call = [] ∧
    sc_query_text call = PStr (lit "notice period") ∧
    sc_use_semantic_ranker call = PBool true.
Proof.
  intros overrides. eexists. split; [vm_compute; reflexivity|].
  match goal with |- context [sc_vectors ?c] =>
    destruct (proj1 (X20_text_mode_search_arguments keys_in_map_order
                       (flat_count 4) json_loads_examples (lit "gpt-4") 8100
                       (lit "T") []
                       no_filter (answer_with (lit "notice period"))
                       failing_embedding failing_embedding overrides
                       notice_history PNone ltac:(vm_compute; reflexivity))
                c ltac:(vm_compute; reflexivity)) as (Hv & _ & Hr & _)
  end.
  split; [exact Hv|]. split; [vm_compute; reflexivity|].
  rewrite Hr. vm_compute. reflexivity.
Defined.

Lemma X21_no_embedding_without_vectors_witness :
  let overrides : gmap str pyval :=
    {[ lit "retrieval_mode" := PStr (lit "text") ]} in
  retrievethenread_search_call no_filter unit_embedding notice_history
    overrides PNone
  = retrievethenread_search_call no_filter failing_embedding notice_history
      overrides PNone.
Proof.
  intros overrides.
  apply (X21_no_embedding_without_vectors keys_in_map_order
           (flat_count 4) json_loads_examples (lit "gpt-4") 8100
           (lit "T") [] no_filter
           (answer_with (lit "notice period")) unit_embedding unit_embedding
           overrides notice_history PNone failing_embedding failing_embedding).
  vm_compute. reflexivity.
Defined.

Lemma X22_hybrid_mode_search_arguments_witness :
  ∃ call newest vector,
    retrievethenread_search_call no_filter unit_embedding notice_history
      ∅ PNone = Ok call ∧
    last notice_history = Some newest ∧
    sc_query_text call = content newest ∧
    sc_vectors call = [vector].
Proof.
  eexists.
  match goal with |- context [sc_vectors ?c] =>
    destruct (proj1 (X22_hybrid_mode_search_arguments keys_in_map_order
                       (flat_count 4) json_loads_examples (lit "gpt-4") 8100
                       (lit "T") []
                       no_filter (answer_with (lit "notice period"))
                       unit_embedding unit_embedding ∅ notice_history PNone
                       ltac:(left; vm_compute; reflexivity))
                c ltac:(vm_compute; reflexivity))
      as (newest & vector & Hlast & Hq & _ & Hv)
  end.
  exists newest, vector. split; [vm_compute; reflexivity|]. done.
Defined.

Lemma X23_unknown_mode_search_arguments_witness :
  let overrides : gmap str pyval :=
    {[ lit "retrieval_mode" := PStr (lit "vector");
       lit "semantic_captions" := PBool true ]} in
  ∃ call,
    retrievethenread_search_call no_filter failing_embedding notice_history
      overrides PNone = Ok call ∧
    sc_query_text call = PNone ∧ sc_vectors call = [] ∧
    sc_use_semantic_captions call = PBool false.
Proof.
  intros overrides. eexists. split; [vm_compute; reflexivity|].
  match goal with |- context [sc_vectors ?c] =>
    destruct (proj2 (X23_unknown_mode_search_arguments keys_in_map_order
                       (flat_count 4) json_loads_examples (lit "gpt-4") 8100
                       (lit "T") []
                       no_filter (answer_with (lit "notice period"))
                       failing_embedding failing_embedding overrides
                       notice_history PNone
                       ltac:(vm_compute; reflexivity)
                       ltac:(vm_compute; reflexivity))
                c ltac:(vm_compute; reflexivity)) as (Hq & Hv & _ & Hc)
  end.
  done.
Defined.

(** The loop over the vector fields returns one vector per field, in the
    order of the fields. *)
Lemma compute_vectors_Forall2
    (compute_text_embedding compute_image_embedding : pyval → res pyval)
    (vector_fields : list pyval) (query_text : pyval) (vectors : list pyval) :
  compute_vectors compute_text_embedding compute_image_embedding
    vector_fields query_text = Ok vectors
  ↔ Forall2 (λ field vector,
       (if py_eq_str field (lit "embedding")
        then compute_text_embedding query_text
        else compute_image_embedding query_text) = Ok vector)
      vector_fields vectors.
Proof.
  revert vectors. induction vector_fields as [|field fields IH]; intros vectors.
  - simpl. split; [intros [= <-]; constructor|by inversion 1].
  - cbn [compute_vectors]. split.
    + destruct (if py_eq_str field _ then _ else _) as [vector|] eqn:Ev;
        [rewrite res_bind_Ok|done].
      destruct (compute_vectors _ _ fields query_text) as [rest|] eqn:E;
        [rewrite res_bind_Ok|done].
      intros [= <-]. constructor; [exact Ev|]. by apply IH.
    + inversion 1 as [|? vector ? rest Hv Hrest]; subst.
      rewrite Hv, res_bind_Ok. apply IH in Hrest. by rewrite Hrest.
Qed.

(** X24: the vectors of the search call of the vision approach.  Whenever
    the approach calls the search collaborator in a retrieval mode with
    vectors, it sends one vector per field of the override [vector_fields],
    in the order of the fields: the text embedding of the distilled query
    for the field "embedding", the image embedding of the distilled query
    for every other field.  The fields are the elements of the override
    when it is a list, the one field "embedding" when it is absent, and the
    single characters of the override when it is a string.  The embeddings
    are those of the distilled query also where the query text sent is
    [None]. *)
Theorem X24_one_vector_per_field
    (dict_iter : gmap str pyval → list str)
    (count : message → str → res nat) (json_loads : str → res pyval)
    (gpt4v_model : str) (chatgpt_token_limit : Z)
    (query_prompt_template : str) (query_prompt_few_shots : list message)
    (build_filter : gmap str pyval → pyval → res pyval)
    (chat_completions_create : list message → res chat_completion)
    (compute_text_embedding compute_image_embedding : pyval → res pyval)
    (overrides : gmap str pyval) (history : list message)
    (auth_claims : pyval) (call : search_call) :
  has_vector overrides = true →
  vision_search_call dict_iter count json_loads gpt4v_model
    chatgpt_token_limit query_prompt_template query_prompt_few_shots
    build_filter chat_completions_create compute_text_embedding
    compute_image_embedding history overrides auth_claims = Ok call →
  ∃ question query_text fields,
    distilled_query count json_loads gpt4v_model chatgpt_token_limit
      query_prompt_template query_prompt_few_shots chat_completions_create
      history = Ok (question, query_text) ∧
    (∀ l, overrides !! lit "vector_fields" = Some (PList l) →
          fields = l) ∧
    (overrides !! lit "vector_fields" = None →
     fields = [PStr (lit "embedding")]) ∧
    (∀ t, overrides !! lit "vector_fields" = Some (PStr t) →
          fields = PStr <$> chars t) ∧
    Forall2 (λ field vector,
               (if py_eq_str field (lit "embedding")
                then compute_text_embedding query_text
                else compute_image_embedding query_text) = Ok vector)
            fields (sc_vectors call).
Proof.
  intros Hvec.
  change (vision_search_call _ _ _ _ _ _ _ _ _ _ _ history overrides
            auth_claims)
    with (vision_call_with dict_iter count json_loads gpt4v_model
            chatgpt_token_limit query_prompt_template query_prompt_few_shots
            build_filter chat_completions_create compute_text_embedding
            compute_image_embedding history overrides auth_claims).
  rewrite vision_call_with_eq, Hvec.
  destruct (build_filter overrides auth_claims) as [filter|];
    [rewrite !res_bind_Ok|done].
  destruct (distilled_query _ _ _ _ _ _ _ _) as [[question query_text]|];
    [rewrite !res_bind_Ok|done].
  destruct (vector_fields_of dict_iter overrides) as [fields|] eqn:Hfields;
    [rewrite !res_bind_Ok|done].
  destruct (compute_vectors _ _ fields query_text) as [vectors|] eqn:Hvectors;
    [rewrite !res_bind_Ok|done].
  intros [= <-]. sc_fields.
  exists question, query_text, fields. split; [done|].
  unfold vector_fields_of, dict_get_or in Hfields.
  repeat split.
  - intros l Hl. rewrite Hl in Hfields.
    cbn [default from_option id] in Hfields. congruence.
  - intros Hl. rewrite Hl in Hfields.
    cbn [default from_option id] in Hfields. congruence.
  - intros t Hl. rewrite Hl in Hfields.
    cbn [default from_option id] in Hfields. congruence.
  - by apply compute_vectors_Forall2.
Qed.

Lemma X24_one_vector_per_field_witness :
  let overrides : gmap str pyval :=
    {[ lit "retrieval_mode" := PStr (lit "vectors");
       lit "vector_fields" :=
         PList [PStr (lit "embedding"); PStr (lit "imageEmbedding")] ]} in
  ∃ call,
    vision_search_call keys_in_map_order (flat_count 4) json_loads_examples
      (lit "gpt-4") 8100 (lit "T") [] no_filter
      (answer_with (lit "notice period")) unit_embedding image_embedding
      notice_history overrides PNone = Ok call ∧
    sc_query_text call = PNone ∧
    length (sc_vectors call) = 2%nat.
Proof.
  intros overrides. eexists. split; [vm_compute; reflexivity|].
  split; [reflexivity|].
  match goal with |- context [sc_vectors ?c] =>
    destruct (X24_one_vector_per_field keys_in_map_order (flat_count 4)
                json_loads_examples (lit "gpt-4") 8100 (lit "T") [] no_filter
                (answer_with (lit "notice period")) unit_embedding
                image_embedding overrides notice_history PNone c
                ltac:(vm_compute; reflexivity) ltac:(vm_compute; reflexivity))
      as (question & query_text & fields & _ & Hlist & _ & _ & Hvectors)
  end.
  rewrite <- (Forall2_length _ _ _ Hvectors).
  by rewrite (Hlist _ ltac:(vm_compute; reflexivity)).
Defined.



(** X26: the first failures of the two approaches.  Retrieve-then-read
    reads the last message before anything else: on an empty list it raises
    [IndexError], whatever the overrides and the collaborators are.  The
    vision approach builds the filter first: an error of [build_filter] is
    raised to the caller whatever the history is; once the filter is built,
    an empty history raises [IndexError] and a last entry whose content is
    not a string raises [TypeError], before any service is called. *)
Theorem X26_empty_history_errors
    (dict_iter : gmap str pyval → list str)
    (count : message → str → res nat) (json_loads : str → res pyval)
    (gpt4v_model : str) (chatgpt_token_limit : Z)
    (query_prompt_template : str) (query_prompt_few_shots : list message)
    (build_filter : gmap str pyval → pyval → res pyval)
    (chat_completions_create : list message → res chat_completion)
    (compute_text_embedding compute_image_embedding : pyval → res pyval)
    (overrides : gmap str pyval) (auth_claims : pyval) :
  retrievethenread_search_call build_filter compute_text_embedding
    [] overrides auth_claims = Raise IndexError ∧
  (∀ history e,
     build_filter overrides auth_claims = Raise e →
     vision_search_call dict_iter count json_loads gpt4v_model
       chatgpt_token_limit query_prompt_template query_prompt_few_shots
       build_filter chat_completions_create compute_text_embedding
       compute_image_embedding history overrides auth_claims = Raise e) ∧
  (∀ filter,
     build_filter overrides auth_claims = Ok filter →
     vision_search_call dict_iter count json_loads gpt4v_model
       chatgpt_token_limit query_prompt_template query_prompt_few_shots
       build_filter chat_completions_create compute_text_embedding
       compute_image_embedding [] overrides auth_claims = Raise IndexError ∧
     ∀ history newest,
       last history = Some newest →
       (∀ text, content newest ≠ PStr text) →
       vision_search_call dict_iter count json_loads gpt4v_model
         chatgpt_token_limit query_prompt_template query_prompt_few_shots
         build_filter chat_completions_create compute_text_embedding
         compute_image_embedding history overrides auth_claims
       = Raise TypeError).
Proof.
  split; [done|]. split.
  - intros history e He. unfold vision_search_call. by rewrite He.
  - intros filter Hfilter. unfold vision_search_call.
    rewrite Hfilter, !res_bind_Ok. split; [done|].
    intros history newest Hlast Hcontent.
    unfold last_item, content_text. rewrite Hlast, !res_bind_Ok.
    destruct (content newest) as [| | | |text| |]; try done.
    by destruct (Hcontent text).
Qed.

Lemma X26_empty_history_errors_witness :
  vision_search_call keys_in_map_order (flat_count 4) json_loads_examples
    (lit "gpt-4") 8100 (lit "T") [] failing_filter
    (answer_with (lit "notice period")) unit_embedding unit_embedding
    [] ∅ PNone
  = Raise (OtherError (lit "no access to the security filter")) ∧
  vision_search_call keys_in_map_order (flat_count 4) json_loads_examples
    (lit "gpt-4") 8100 (lit "T") [] no_filter
    (answer_with (lit "notice period")) unit_embedding unit_embedding
    [Message USER (PList [])] ∅ PNone
  = Raise TypeError.
Proof.
  split.
  - refine (proj1 (proj2 (X26_empty_history_errors keys_in_map_order
                            (flat_count 4) json_loads_examples (lit "gpt-4")
                            8100 (lit "T") [] failing_filter
                            (answer_with (lit "notice period")) unit_embedding
                            unit_embedding ∅ PNone)) [] _ eq_refl).
  - refine (proj2 (proj2 (proj2 (X26_empty_history_errors keys_in_map_order
                            (flat_count 4) json_loads_examples (lit "gpt-4")
                            8100 (lit "T") [] no_filter
                            (answer_with (lit "notice period")) unit_embedding
                            unit_embedding ∅ PNone)) PNone eq_refl)
              [Message USER (PList [])] (Message USER (PList [])) eq_refl _).
    discriminate.
Defined.

(* ===================================================================== *)
(** * Properties of the entry point and of the answer step *)
(* ===================================================================== *)

(** The kept history of an assembly that returned (the fact behind X15). *)
Lemma get_messages_from_history_suffix count system_prompt model_id history
    user_content max_tokens few_shots msgs :
  get_messages_from_history count system_prompt model_id history
    user_content max_tokens few_shots = Ok msgs →
  ∃ j, msgs = Message SYSTEM (PStr system_prompt) :: few_shots
              ++ drop j (all_but_last history)
              ++ [Message USER user_content].
Proof.
  rewrite get_messages_from_history_eq.
  destruct (total_cost count model_id _) as [base|]; [rewrite res_bind_Ok|done].
  destruct (accepted count model_id max_tokens base _) as [acc|] eqn:Hacc;
    [rewrite res_bind_Ok|done].
  intros [= <-].
  destruct (accepted_prefix count _ _ _ _ _ Hacc) as (k & c & -> & _ & _).
  exists (length (all_but_last history) - k)%nat.
  by rewrite reverse_take, length_reverse, reverse_involutive.
Qed.

Section RunProperties.

Variable run_until_final_call_completion :
  list message → gmap str pyval → pyval → res (pyval * chat_response).
Variable run_until_final_call_stream :
  list message → gmap str pyval → pyval → res (pyval * list event).

(** X27: a request without overrides gets the model's output untouched.
    When the context has no "overrides", [run] uses empty overrides: if
    [stream] is the object [False] it returns the response with the content
    of the first choice as it is and no list of follow-up questions; for
    every other value of [stream], falsy ones such as [None] and [0]
    included, it returns the generator, which yields the context event and
    then every chunk that has choices, unchanged. *)
Theorem X27_run_without_overrides (messages : list message)
    (stream session_state : pyval) (context : gmap str pyval) :
  context !! lit "overrides" = None →
  let auth_claims := dict_get_or context (lit "auth_claims") (PDict ∅) in
  let result :=
    run run_until_final_call_completion run_until_final_call_stream
      messages stream session_state context in
  (stream = PBool false →
   ∀ extra_info c more other,
     run_until_final_call_completion messages ∅ auth_claims
     = Ok (extra_info, {| resp_content := c :: more; resp_other := other |}) →
     result = Ok (inl {| result_content := c;
                         result_context := extra_info;
                         result_followup_questions := None;
                         result_session_state := session_state;
                         result_other := other |})) ∧
  (stream ≠ PBool false →
   ∀ extra_info events,
     run_until_final_call_stream messages ∅ auth_claims
     = Ok (extra_info, events) →
     result = Ok (inr (YContext extra_info session_state
                       :: (YEvent <$> filter (λ e, has_choices e) events)))).
Proof.
  intros Hctx auth_claims result. subst result. unfold run.
  replace (dict_get_or context (lit "overrides") (PDict ∅))
    with (PDict (∅ : gmap str pyval))
    by (unfold dict_get_or; by rewrite Hctx).
  rewrite res_bind_Ok. fold auth_claims. split.
  - intros -> extra_info c more other ->. by rewrite res_bind_Ok.
  - intros Hstream extra_info events Hrun.
    assert (Hbranch : ∀ A (a b : A),
              (if stream is PBool false then a else b) = b).
    { intros A a b. destruct stream as [|[]| | | | |]; done. }
    rewrite Hbranch, Hrun, res_bind_Ok.
    rewrite (stream_loop_not_requested_run ∅) by done. done.
Qed.

End RunProperties.

Lemma X27_run_without_overrides_witness :
  run (λ _ _ _, Raise (OtherError (lit "not called")))
      (λ _ _ _, Ok (PNone, [delta_event (lit "Yes. <<Why?>>")]))
      notice_history (PInt 0) PNone ∅
  = Ok (inr [YContext PNone PNone; YEvent (delta_event (lit "Yes. <<Why?>>"))]).
Proof.
  refine (proj2 (X27_run_without_overrides
                   (λ _ _ _, Raise (OtherError (lit "not called")))
                   (λ _ _ _, Ok (PNone, [delta_event (lit "Yes. <<Why?>>")]))
                   notice_history (PInt 0) PNone ∅ (lookup_empty _))
            _ PNone [delta_event (lit "Yes. <<Why?>>")] eq_refl).
  discriminate.
Defined.

Section AnswerProperties.

Variable document : Type.
Variable dict_iter : gmap str pyval → list str.
Variable count : message → str → res nat.
Variable json_loads : str → res pyval.
Variable gpt4v_model : str.
Variable chatgpt_token_limit : Z.
Variable query_prompt_template : str.
Variable query_prompt_few_shots : list message.
Variable build_filter : gmap str pyval → pyval → res pyval.
Variable chat_completions_create : list message → res chat_completion.
Variable compute_text_embedding : pyval → res pyval.
Variable compute_image_embedding : pyval → res pyval.
Variable str_format : str → gmap str str → res str.
Variable system_message_chat_conversation : str.
Variable follow_up_questions_prompt_content : str.
Variable search : search_call → res (list document).
Variable get_sources_content : list document → pyval → bool → res (list str).

(** X28: the prompt of the final call of the vision approach.  Whenever
    the approach gets as far as the final call, its messages are a system
    message, a suffix of the history without its last entry, and one user
    turn whose parts are: first the original question, then the sources
    block if the input mode includes text, then one image part per image
    URL of the data points, in their order.  The few-shot messages of the
    first step are not part of it, and the response is capped at 1024
    tokens. *)
Theorem X28_vision_final_prompt (fetch_image : document → res (option str))
    (history : list message) (overrides : gmap str pyval)
    (auth_claims : pyval) (should_stream : bool)
    (dp : data_points) (fc : final_call) :
  vision_run_until_final_call document dict_iter count json_loads gpt4v_model
    chatgpt_token_limit query_prompt_template query_prompt_few_shots
    build_filter chat_completions_create compute_text_embedding
    compute_image_embedding str_format system_message_chat_conversation
    follow_up_questions_prompt_content search get_sources_content
    fetch_image history overrides auth_claims should_stream = Ok (dp, fc) →
  ∃ newest question system_message j,
    last history = Some newest ∧ content newest = PStr question ∧
    fc_messages fc
    = Message SYSTEM (PStr system_message)
      :: drop j (all_but_last history)
      ++ [Message USER
            (PList (text_part question
                    :: (if include_gtpV_text overrides
                        then [text_part (SOURCES_HEAD
                                         ++ str_join [NEWLINE] (dp_text dp))]
                        else [])
                    ++ (image_part <$> dp_images dp)))] ∧
    fc_max_tokens fc = 1024 ∧ fc_stream fc = should_stream.
Proof.
  unfold vision_run_until_final_call, last_item, content_text.
  intros H.
  apply res_bind_inv in H as (call & _ & H).
  destruct (last history) as [newest|]; [rewrite res_bind_Ok in H|done].
  destruct (content newest) as [| | | |question| |] eqn:Hq; try done.
  rewrite res_bind_Ok in H.
  apply res_bind_inv in H as (results & _ & H).
  apply res_bind_inv in H as (sources_content & _ & H).
  apply res_bind_inv in H as (system_message & _ & H).
  apply res_bind_inv in H as (image_list & _ & H).
  apply res_bind_inv in H as (msgs & Hmsgs & H).
  injection H as <- <-. cbn [fc_messages fc_max_tokens fc_stream dp_text dp_images].
  apply get_messages_from_history_suffix in Hmsgs as [j ->].
  exists newest, question, system_message, j.
  split; [done|]. split; [done|]. split; [|done].
  by destruct (include_gtpV_text overrides).
Qed.

(** X29: no image is fetched unless the input mode includes images.  When
    [gpt4v_input] is "texts" (or any value other than "textAndImages",
    "images" and [None]) the vision approach does not consult the image
    collaborator: its outcome is the same whatever that collaborator does,
    and the data points it returns hold no image. *)
Theorem X29_no_image_without_image_mode
    (fetch_image other_fetch_image : document → res (option str))
    (history : list message) (overrides : gmap str pyval)
    (auth_claims : pyval) (should_stream : bool) :
  include_gtpV_images overrides = false →
  vision_run_until_final_call document dict_iter count json_loads gpt4v_model
    chatgpt_token_limit query_prompt_template query_prompt_few_shots
    build_filter chat_completions_create compute_text_embedding
    compute_image_embedding str_format system_message_chat_conversation
    follow_up_questions_prompt_content search get_sources_content
    fetch_image history overrides auth_claims should_stream
  = vision_run_until_final_call document dict_iter count json_loads gpt4v_model
      chatgpt_token_limit query_prompt_template query_prompt_few_shots
      build_filter chat_completions_create compute_text_embedding
      compute_image_embedding str_format system_message_chat_conversation
      follow_up_questions_prompt_content search get_sources_content
      other_fetch_image history overrides auth_claims should_stream ∧
  ∀ dp fc,
    vision_run_until_final_call document dict_iter count json_loads gpt4v_model
      chatgpt_token_limit query_prompt_template query_prompt_few_shots
      build_filter chat_completions_create compute_text_embedding
      compute_image_embedding str_format system_message_chat_conversation
      follow_up_questions_prompt_content search get_sources_content
      fetch_image history overrides auth_claims should_stream = Ok (dp, fc) →
    dp_images dp = [].
Proof.
  intros Himages. unfold vision_run_until_final_call. rewrite Himages.
  split; [done|]. intros dp fc H.
  repeat (apply res_bind_inv in H as (? & ? & H)).
  injection H as <- _.
  match goal with Himg : Ok [] = Ok ?l |- _ => by injection Himg as <- end.
Qed.

Variable chatgpt_model : str.
Variable system_chat_template : str.
Variable question : str.
Variable answer : str.

(** X30: the prompt of retrieve-then-read.  Whenever the approach gets as
    far as the completion call, it sends exactly four messages: the system
    template (the override [prompt_template] if given, the class template
    otherwise), the canned example question as a user turn, the canned
    example answer as an assistant turn, and last the user turn made of the
    question of the last message, a newline, the line [Sources:] and the
    sources joined by newlines.  The sources are what [get_sources_content]
    returns, without image citations, for the results of the search call of
    this request. *)
Theorem X30_retrievethenread_prompt (conversation : list message)
    (overrides : gmap str pyval) (auth_claims : pyval) (msgs : list message) :
  retrievethenread_messages document build_filter compute_text_embedding
    search get_sources_content chatgpt_model system_chat_template question
    answer conversation overrides auth_claims = Ok msgs →
  ∃ newest q template call results sources,
    last conversation = Some newest ∧ content newest = PStr q ∧
    dict_get_or overrides (lit "prompt_template") (PStr system_chat_template)
    = PStr template ∧
    retrievethenread_search_call build_filter compute_text_embedding
      conversation overrides auth_claims = Ok call ∧
    search call = Ok results ∧
    get_sources_content results (sc_use_semantic_captions call) false
    = Ok sources ∧
    msgs = [Message SYSTEM (PStr template);
            Message USER (PStr question);
            Message ASSISTANT (PStr answer);
            Message USER
              (PStr (q ++ [NEWLINE] ++ lit "Sources:" ++ [NEWLINE; SPACE]
                     ++ str_join [NEWLINE] sources))].
Proof.
  unfold retrievethenread_messages, last_item. intros H.
  apply res_bind_inv in H as (call & Hcall & H).
  destruct (last conversation) as [newest|]; [rewrite res_bind_Ok in H|done].
  apply res_bind_inv in H as (results & Hresults & H).
  destruct (dict_get_or overrides _ _) as [| | | |template| |] eqn:Ht; try done.
  rewrite res_bind_Ok in H.
  apply res_bind_inv in H as (sources & Hsources & H).
  destruct (content newest) as [| | | |q| |] eqn:Hq; try done.
  rewrite res_bind_Ok in H. injection H as <-.
  by exists newest, q, template, call, results, sources.
Qed.

End AnswerProperties.

Lemma X28_vision_final_prompt_witness :
  ∃ dp fc,
    vision_run_until_final_call (list N) keys_in_map_order
      (flat_count 4) json_loads_examples
      (lit "gpt-4") 8100 (lit "T") [] no_filter
      (answer_with (lit "notice period")) unit_embedding unit_embedding
      format_as_is (lit "SYSTEM") (lit "FOLLOW") found_documents
      names_as_sources image_of_name notice_history ∅ PNone false
    = Ok (dp, fc) ∧
    fc_max_tokens fc = 1024 ∧
    dp_images dp = [lit "data:lease.pdf"; lit "data:notice.pdf"].
Proof.
  destruct (vision_run_until_final_call (list N) keys_in_map_order
              (flat_count 4) json_loads_examples (lit "gpt-4") 8100
              (lit "T") [] no_filter
              (answer_with (lit "notice period")) unit_embedding
              unit_embedding format_as_is (lit "SYSTEM") (lit "FOLLOW")
              found_documents names_as_sources image_of_name notice_history
              ∅ PNone false) as [[dp fc]|e] eqn:E;
    [|vm_compute in E; discriminate].
  exists dp, fc. split; [reflexivity|].
  destruct (X28_vision_final_prompt _ _ _ _ _ _ _ _ _ _ _ _ _ _ _ _ _ _ _ _ _
              _ dp fc E) as (newest & q & sm & j & _ & _ & _ & Hmax & _).
  split; [exact Hmax|]. vm_compute in E. by injection E as <- _.
Defined.

Lemma X29_no_image_without_image_mode_witness :
  let overrides : gmap str pyval :=
    {[ lit "gpt4v_input" := PStr (lit "texts") ]} in
  vision_run_until_final_call (list N) keys_in_map_order
    (flat_count 4) json_loads_examples
    (lit "gpt-4") 8100 (lit "T") [] no_filter
    (answer_with (lit "notice period")) unit_embedding unit_embedding
    format_as_is (lit "SYSTEM") (lit "FOLLOW") found_documents
    names_as_sources image_of_name notice_history overrides PNone false
  = vision_run_until_final_call (list N) keys_in_map_order
      (flat_count 4) json_loads_examples
      (lit "gpt-4") 8100 (lit "T") [] no_filter
      (answer_with (lit "notice period")) unit_embedding unit_embedding
      format_as_is (lit "SYSTEM") (lit "FOLLOW") found_documents
      names_as_sources failing_fetch notice_history overrides PNone false.
Proof.
  intros overrides.
  apply (X29_no_image_without_image_mode (list N) keys_in_map_order
           (flat_count 4)
           json_loads_examples (lit "gpt-4") 8100 (lit "T") [] no_filter
           (answer_with (lit "notice period")) unit_embedding unit_embedding
           format_as_is (lit "SYSTEM") (lit "FOLLOW") found_documents
           names_as_sources image_of_name failing_fetch notice_history
           overrides PNone false).
  vm_compute. reflexivity.
Defined.

Lemma X30_retrievethenread_prompt_witness :
  ∃ msgs,
    retrievethenread_messages (list N) no_filter unit_embedding
      found_documents names_as_sources (lit "gpt-35-turbo") (lit "TEMPLATE")
      (lit "EXAMPLE QUESTION") (lit "EXAMPLE ANSWER") notice_history
      {[ lit "prompt_template" := PStr (lit "OVERRIDE") ]} PNone = Ok msgs ∧
    length msgs = 4%nat ∧
    head msgs = Some (Message SYSTEM (PStr (lit "OVERRIDE"))).
Proof.
  destruct (retrievethenread_messages (list N) no_filter unit_embedding
              found_documents names_as_sources (lit "gpt-35-turbo")
              (lit "TEMPLATE") (lit "EXAMPLE QUESTION") (lit "EXAMPLE ANSWER")
              notice_history
              {[ lit "prompt_template" := PStr (lit "OVERRIDE") ]} PNone)
    as [msgs|e] eqn:E; [|vm_compute in E; discriminate].
  exists msgs. split; [reflexivity|].
  destruct (X30_retrievethenread_prompt _ _ _ _ _ _ _ _ _ _ _ _ _ E)
    as (newest & q & template & call & results & sources
        & _ & _ & Ht & _ & _ & _ & ->).
  split; [reflexivity|]. vm_compute in Ht. by injection Ht as <-.
Defined.
